(** * NotePerfect control-voltage quantizer (main.c): a shallow embedding

    The firmware is one [main] whose endless loop reads an ADC sample,
    runs it through a 128-tap moving-average filter with a slope reset,
    converts the average to millivolts, snaps it to the nearest 1/12 V
    step and drives the PWM outputs, the LCD and the blue "correction"
    LED.  The C integer types are modelled as [Z] with the wrap-around of
    each width written out; arrays are lists read with [!!] and written
    with [<[ _ := _ ]>]; the peripheral calls of one loop iteration are
    collected as a trace of events. *)

From Stdlib Require Import ZArith Lia List Bool.
From Stdlib Require String.
From stdpp Require Import base list.

Local Open Scope Z_scope.

(** ** Machine integers *)

Module MachineInt.

(** Conversion to an unsigned type of [w] bits. *)
Definition to_unsigned (w : Z) (x : Z) : Z := x mod 2 ^ w.

(** Conversion to a signed type of [w] bits (two's complement, as the
    ARM GCC compiler does it). *)
Definition to_signed (w : Z) (x : Z) : Z :=
  (x + 2 ^ (w - 1)) mod 2 ^ w - 2 ^ (w - 1).

Definition to_uint8 := to_unsigned 8.
Definition to_uint16 := to_unsigned 16.
Definition to_uint32 := to_unsigned 32.
Definition to_int16 := to_signed 16.
Definition to_int32 := to_signed 32.

Definition INT32_MIN : Z := - 2 ^ 31.
Definition INT32_MAX : Z := 2 ^ 31 - 1.

Definition int32_range (x : Z) : Prop := INT32_MIN <= x <= INT32_MAX.

End MachineInt.

Import MachineInt.

(** ** The constants of main.c *)

(** Number of samples of the moving-average filter. *)
Definition MAX_SAMPLE : Z := to_uint8 128.

(** Threshold to reset the filter on a sharp change of the signal. *)
Definition SIGNAL_SLOPE : Z := 1000.

(** Number of shifts for the sum and the average of [MAX_SAMPLE]. *)
Definition DIV : Z := 7.

Definition NUMBER_NOTES_PER_VOLT : Z := 12.
Definition MAX_CONTROL_VOLTAGE : Z := 5.

Definition NUMBER_NOTE_PERFECT_STEPS : Z :=
  to_uint32 (NUMBER_NOTES_PER_VOLT * MAX_CONTROL_VOLTAGE).

(** All operands carry the suffix [u]: the step size is an [unsigned int]. *)
Definition NOTEPERFECT_STEP_SIZE_MV : Z :=
  to_uint32 (MAX_CONTROL_VOLTAGE * 1000) / NUMBER_NOTE_PERFECT_STEPS.

Definition CORRECTION_WINDOW : Z := NOTEPERFECT_STEP_SIZE_MV / 4.

Definition IN_B : Z := 0.
Definition IN_A : Z := 1.

Definition BLUE_CTRL : Z := 1.
Definition RED_CTRL : Z := 2.
Definition GREEN_CTRL : Z := 4.

(** NotePerfect step number lookup table ([uint16_t PWM_Lookup[]]). *)
Definition PWM_Lookup : list Z :=
  [0; 83; 167; 250; 333; 417; 500; 583; 667; 750; 833; 917; 1000;
   1083; 1167; 1250; 1333; 1417; 1500; 1583; 1667; 1750; 1833; 1917; 2000;
   2083; 2167; 2250; 2333; 2417; 2500; 2583; 2667; 2750; 2833; 2917; 3000;
   3083; 3167; 3250; 3333; 3417; 3500; 3583; 3667; 3750; 3833; 3917; 4000;
   4083; 4167; 4250; 4333; 4417; 4500; 4583; 4667; 4750; 4833; 4917; 5000].

(** [PWM_Lookup[i]] for an index held in a [uint32]: a read inside the
    array gives its element, a read past its end has no defined value. *)
Definition PWM_Lookup_at (i : Z) : option Z :=
  if (0 <=? i) && (i <? Z.of_nat (length PWM_Lookup))
  then PWM_Lookup !! Z.to_nat i
  else None.

(** ** The quantizer (main.c, "NotePerfect magic happens here")

    [milliVolts] is an [int32] and the step size an [unsigned int]: by the
    usual arithmetic conversions the division and the modulo are carried
    out on the 32-bit unsigned value of [milliVolts]; the results are kept
    in the [uint32] variables [notePerfectValue] and [remainder]. *)

Definition remainder (milliVolts : Z) : Z :=
  to_uint32 (to_uint32 milliVolts mod NOTEPERFECT_STEP_SIZE_MV).

Definition notePerfectValue (milliVolts : Z) : Z :=
  let notePerfectValue :=
    to_uint32 (to_uint32 milliVolts / NOTEPERFECT_STEP_SIZE_MV) in
  if remainder milliVolts >=? NOTEPERFECT_STEP_SIZE_MV / 2
  then to_uint32 (notePerfectValue + 1)
  else notePerfectValue.

(** Is a table entry strictly below its successor, all along the list? *)
Fixpoint strictly_increasing (l : list Z) : bool :=
  match l with
  | x :: (y :: _) as tl => (x <? y) && strictly_increasing tl
  | _ => true
  end.

(** ** The moving-average filter *)

(** The filter variables of [main]: [int32 adcCounts[MAX_SAMPLE]],
    [int32 sum], [int32 averageCounts] and [uint8 index]. *)
Record filter_state : Type := mk_filter {
  adcCounts : list Z;
  sum : Z;
  averageCounts : Z;
  index : Z
}.

(** [for(i = 0; i < MAX_SAMPLE; i++) adcCounts[i] = result;] with the
    [uint8] counter [i]; [fuel] bounds the number of iterations. *)
Fixpoint fill_loop (fuel : nat) (i : Z) (a : list Z) (result : Z) : list Z :=
  match fuel with
  | O => a
  | S fuel' =>
      if i <? MAX_SAMPLE
      then fill_loop fuel' (to_uint8 (i + 1)) (<[Z.to_nat i := result]> a) result
      else a
  end.

Definition fill (a : list Z) (result : Z) : list Z := fill_loop 256 0 a result.

(** [abs] of the C library on a 32-bit [int]. *)
Definition abs (x : Z) : Z := to_int32 (Z.abs x).

(** [int16 diff = abs(averageCounts - result);]: the subtraction and the
    absolute value are 32 bits wide, the assignment narrows to 16 bits. *)
Definition diff (averageCounts result : Z) : Z :=
  to_int16 (abs (to_int32 (averageCounts - result))).

(** The array as [main] declares it: [int32 adcCounts[MAX_SAMPLE] = {0}]. *)
Definition adcCounts_zero : list Z := replicate (Z.to_nat MAX_SAMPLE) 0.

(** "Read one sample from the ADC and initialize the filter". *)
Definition filter_init (result : Z) : filter_state :=
  {| adcCounts := fill adcCounts_zero result;
     sum := to_int32 (Z.shiftl result DIV);
     averageCounts := result;
     index := 0 |}.

(** The filter part of one loop iteration: slope reset or sliding
    update.  [adcCounts[index]] is read with [index] below [MAX_SAMPLE]
    in every state the program reaches (see [filter_inv]); the model
    reads 0 elsewhere. *)
Definition filter_update (f : filter_state) (result : Z) : filter_state :=
  if diff (averageCounts f) result >? SIGNAL_SLOPE
  then
    {| adcCounts := fill (adcCounts f) result;
       sum := to_int32 (Z.shiftl result DIV);
       averageCounts := result;
       index := 0 |}
  else
    let sum1 := to_int32 (sum f - default 0 (adcCounts f !! Z.to_nat (index f))) in
    let sum2 := to_int32 (sum1 + result) in
    let index1 := to_uint8 (index f + 1) in
    {| adcCounts := <[Z.to_nat (index f) := result]> (adcCounts f);
       sum := sum2;
       averageCounts := Z.shiftr sum2 DIV;
       index := if index1 =? MAX_SAMPLE then 0 else index1 |}.

(** The filter after initialization with [first] and one loop iteration
    per sample of [samples]. *)
Definition filter_run (first : Z) (samples : list Z) : filter_state :=
  fold_left filter_update samples (filter_init first).

(** The sum of the buffer contents, recomputed from scratch. *)
Definition buffer_sum (a : list Z) : Z := foldr Z.add 0 a.

(** Samples whose 128-fold sum fits [int32]; the 20-bit codes of the
    delta-sigma ADC are well inside. *)
Definition sample_range (x : Z) : Prop := - 2 ^ 24 <= x < 2 ^ 24.

(** The invariant of the filter variables. *)
Record filter_inv (f : filter_state) : Prop := mk_filter_inv {
  inv_length : length (adcCounts f) = 128%nat;
  inv_range : Forall sample_range (adcCounts f);
  inv_sum : sum f = buffer_sum (adcCounts f);
  inv_average : averageCounts f = Z.shiftr (sum f) DIV;
  inv_index : 0 <= index f < MAX_SAMPLE
}.

(** ** Correction detector and outputs *)

(** The condition of "determine if correction was applied": both sides
    are compared as 32-bit unsigned values, [t] is [PWM_Lookup[notePerfectValue]]. *)
Definition correction_applied (milliVolts t : Z) : bool :=
  (to_uint32 milliVolts >? to_uint32 (t + CORRECTION_WINDOW))
  || (to_uint32 milliVolts <? to_uint32 (t - CORRECTION_WINDOW)).

(** The detector on a millivolt value alone: the table entry is read at
    the step the quantizer gives. *)
Definition correction_active (milliVolts : Z) : option bool :=
  t ← PWM_Lookup_at (notePerfectValue milliVolts);
  Some (correction_applied milliVolts t).

(** What [sprintf] leaves in [displayStr]: the format and the number. *)
Inductive display_string : Type :=
| fmt_4d (v : Z)    (* "%4d" *)
| fmt_2ld (v : Z)   (* "%2ld" *)
| fmt_4ld (v : Z).  (* "%4ld" *)

(** The peripheral calls of the signal path. *)
Inductive event : Type :=
| PWM_WriteCompare (v : Z)
| PWM_Red_WriteCompare (v : Z)
| PWM_Green_WriteCompare (v : Z)
| PWM_Blue_WriteCompare (v : Z)
| PWM_Blue_Start
| PWM_Blue_Stop
| Control_Reg_Write (v : Z)
| LCD_Position (row col : Z)
| LCD_PrintString (s : display_string).

(** The variables of [main] that live across loop iterations, and the
    control register that [Control_Reg_Read] reads back. *)
Record state : Type := mk_state {
  filter_vars : filter_state;
  previousNotePerfectValue : Z;
  inputChannel : Z;
  Control_Reg : Z
}.

(** "front-panel LED housekeeping" *)
Definition led_housekeeping (inputChannel notePerfectValue : Z) : option (list event) :=
  if IN_A =? inputChannel then
    if 0 =? notePerfectValue
    then v ← PWM_Lookup_at 1; Some [PWM_Red_WriteCompare v]
    else v ← PWM_Lookup_at notePerfectValue; Some [PWM_Red_WriteCompare v]
  else if IN_B =? inputChannel then
    if 0 =? notePerfectValue
    then v ← PWM_Lookup_at 1; Some [PWM_Green_WriteCompare v]
    else v ← PWM_Lookup_at notePerfectValue; Some [PWM_Green_WriteCompare v]
  else Some [].

(** The body of [if(notePerfectValue != previousNotePerfectValue)]. *)
Definition step_changed (inputChannel notePerfectValue : Z) : option (list event) :=
  v ← PWM_Lookup_at notePerfectValue;
  led ← led_housekeeping inputChannel notePerfectValue;
  d ← PWM_Lookup_at notePerfectValue;
  Some ([PWM_WriteCompare v] ++ led
        ++ [LCD_Position 1 12; LCD_PrintString (fmt_4d d);
            LCD_Position 0 14; LCD_PrintString (fmt_2ld notePerfectValue)]).

(** "Convert milli volts to string and display on the LCD" *)
Definition telemetry (milliVolts : Z) : list event :=
  [LCD_Position 1 0; LCD_PrintString (fmt_4ld milliVolts)].

(** The blue LED: both branches of the correction test.  Returns the
    calls and the control register afterwards. *)
Definition blue_led (reg milliVolts notePerfectValue : Z) : option (list event * Z) :=
  t ← PWM_Lookup_at notePerfectValue;
  if correction_applied milliVolts t then
    v ← (if notePerfectValue >? 10 then PWM_Lookup_at 10
         else PWM_Lookup_at notePerfectValue);
    Some ([PWM_Blue_WriteCompare v; PWM_Blue_Start], reg)
  else
    let reg1 := to_uint8 (Z.lor reg BLUE_CTRL) in
    let reg2 := to_uint8 (Z.land reg1 (Z.lnot BLUE_CTRL)) in
    Some ([Control_Reg_Write reg1; PWM_Blue_Stop; Control_Reg_Write reg2], reg2).

Section Pipeline.

(** The unit converter of the ADC component, [ADC_CountsTo_mVolts],
    is generated code outside main.c. *)
Variable ADC_CountsTo_mVolts : Z -> Z.

(** The filtered millivolts of an iteration that reads [result]. *)
Definition milliVolts_of (st : state) (result : Z) : Z :=
  to_int32 (ADC_CountsTo_mVolts (averageCounts (filter_update (filter_vars st) result))).

(** One iteration of [while(1)] from the ADC read on: the new state
    and the peripheral calls in program order, or [None] when the
    iteration reads [PWM_Lookup] outside the array. *)
Definition tick (st : state) (result : Z) : option (state * list event) :=
  let f := filter_update (filter_vars st) result in
  let milliVolts := milliVolts_of st result in
  let npv := notePerfectValue milliVolts in
  changed ← (if negb (npv =? previousNotePerfectValue st)
             then ev ← step_changed (inputChannel st) npv; Some (ev, npv)
             else Some ([], previousNotePerfectValue st));
  blue ← blue_led (Control_Reg st) milliVolts npv;
  Some ({| filter_vars := f;
           previousNotePerfectValue := changed.2;
           inputChannel := inputChannel st;
           Control_Reg := blue.2 |},
        changed.1 ++ telemetry milliVolts ++ blue.1).

End Pipeline.

(** The calls that carry the quantized output: the PWM compare value,
    the brightness of the channel LED, and the DAC and step fields of
    the LCD (row 1 column 12, row 0 column 14). *)
Definition primary_output (e : event) : bool :=
  match e with
  | PWM_WriteCompare _ | PWM_Red_WriteCompare _ | PWM_Green_WriteCompare _ => true
  | LCD_Position row col =>
      ((row =? 1) && (col =? 12)) || ((row =? 0) && (col =? 14))
  | LCD_PrintString (fmt_4d _) | LCD_PrintString (fmt_2ld _) => true
  | _ => false
  end.

(** The blue PWM as the calls leave it: its compare value and whether
    it runs. *)
Record blue_pwm : Type := mk_blue { blue_compare : Z; blue_running : bool }.

Definition blue_call (b : blue_pwm) (e : event) : blue_pwm :=
  match e with
  | PWM_Blue_WriteCompare v => {| blue_compare := v; blue_running := blue_running b |}
  | PWM_Blue_Start => {| blue_compare := blue_compare b; blue_running := true |}
  | PWM_Blue_Stop => {| blue_compare := blue_compare b; blue_running := false |}
  | _ => b
  end.

(** The intensity the blue LED shows: the compare value while the PWM
    runs, nothing once it is stopped. *)
Definition correction_magnitude (b : blue_pwm) : Z :=
  if blue_running b then blue_compare b else 0.

(** ** The CapSense block and the whole loop *)

Definition OFF : Z := 0.
Definition ON : Z := 1.

(** The two texts the CapSense block prints on the LCD. *)
Module Label.
Import String.
Definition In_A : string := "In A".
Definition In_B : string := "In B".
End Label.

(** What the CapSense component answers in one loop iteration:
    [CapSense_IsBusy() != 0] and [CapSense_CheckIsWidgetActive] of the
    three buttons. *)
Record CapSense_scan : Type := mk_scan {
  CapSense_IsBusy : bool;
  BUTTON0 : bool;
  BUTTON1 : bool;
  BUTTON2 : bool
}.

(** The peripheral calls of a whole loop iteration: those of the signal
    path and those only the CapSense block makes. *)
Inductive call : Type :=
| signal_path (e : event)
| CapSense_UpdateEnabledBaselines
| CapSense_ScanEnabledWidgets
| myMux_FastSelect (channel : Z)
| PWM_Red_Start
| PWM_Red_Stop
| PWM_Green_Start
| PWM_Green_Stop
| LCD_PrintLabel (s : String.string).

(** The variables of [main] across loop iterations, now with the two
    [uint8_t] button memories. *)
Record loop_state : Type := mk_loop {
  vars : state;
  previousButton0 : Z;
  previousButton1 : Z
}.

(** "Fixed-function PWMs hold value when stopped, so reset first then
    stop": set the PWM's bit of the control register, stop, clear it.
    Returns the two values written. *)
Definition reset_pulse (reg mask : Z) : Z * Z :=
  let reg1 := to_uint8 (Z.lor reg mask) in
  (reg1, to_uint8 (Z.land reg1 (Z.lnot mask))).

(** The body of [if(previousButton0 == OFF)]: select In_A. *)
Definition select_IN_A (reg : Z) : list call * Z :=
  let p := reset_pulse reg GREEN_CTRL in
  ([myMux_FastSelect IN_A; PWM_Red_Start;
    signal_path (Control_Reg_Write p.1); PWM_Green_Stop;
    signal_path (Control_Reg_Write p.2);
    signal_path (LCD_Position 0 0); LCD_PrintLabel Label.In_A], p.2).

(** The body of [if(previousButton1 == OFF)]: select In_B. *)
Definition select_IN_B (reg : Z) : list call * Z :=
  let p := reset_pulse reg RED_CTRL in
  ([myMux_FastSelect IN_B; PWM_Green_Start;
    signal_path (Control_Reg_Write p.1); PWM_Red_Stop;
    signal_path (Control_Reg_Write p.2);
    signal_path (LCD_Position 0 0); LCD_PrintLabel Label.In_B], p.2).

(** "future use ... for demo only" (main.c). *)
Definition Button2_demo : list call :=
  [signal_path (PWM_Blue_WriteCompare 5000); signal_path PWM_Blue_Start;
   signal_path (PWM_Red_WriteCompare 0); signal_path (PWM_Green_WriteCompare 0)].

(** The user-interface block at the head of the loop (main.c). *)
Definition CapSense_block (scan : CapSense_scan) (ls : loop_state)
  : loop_state * list call :=
  if negb (CapSense_IsBusy scan) then
    let st := vars ls in
    (* button 0 *)
    let '(c0, ch0, reg0, pb0) :=
      if BUTTON0 scan then
        if previousButton0 ls =? OFF
        then let s := select_IN_A (Control_Reg st) in (s.1, IN_A, s.2, ON)
        else ([], inputChannel st, Control_Reg st, previousButton0 ls)
      else ([], inputChannel st, Control_Reg st, OFF) in
    (* button 1 *)
    let '(c1, ch1, reg1, pb1) :=
      if BUTTON1 scan then
        if previousButton1 ls =? OFF
        then let s := select_IN_B reg0 in (s.1, IN_B, s.2, ON)
        else ([], ch0, reg0, previousButton1 ls)
      else ([], ch0, reg0, OFF) in
    (* button 2 *)
    let c2 := if BUTTON2 scan then Button2_demo else [] in
    ({| vars := {| filter_vars := filter_vars st;
                   previousNotePerfectValue := previousNotePerfectValue st;
                   inputChannel := ch1;
                   Control_Reg := reg1 |};
        previousButton0 := pb0;
        previousButton1 := pb1 |},
     [CapSense_UpdateEnabledBaselines] ++ c0 ++ c1 ++ c2 ++ [CapSense_ScanEnabledWidgets])
  else (ls, []).

(** The same block in the other firmware image (Main.c, version 1.1):
    button 2 only keeps its own [previousButton2]. *)
Definition CapSense_block_v1_1 (scan : CapSense_scan) (ls : loop_state * Z)
  : (loop_state * Z) * list call :=
  if negb (CapSense_IsBusy scan) then
    let st := vars ls.1 in
    let '(c0, ch0, reg0, pb0) :=
      if BUTTON0 scan then
        if previousButton0 ls.1 =? OFF
        then let s := select_IN_A (Control_Reg st) in (s.1, IN_A, s.2, ON)
        else ([], inputChannel st, Control_Reg st, previousButton0 ls.1)
      else ([], inputChannel st, Control_Reg st, OFF) in
    let '(c1, ch1, reg1, pb1) :=
      if BUTTON1 scan then
        if previousButton1 ls.1 =? OFF
        then let s := select_IN_B reg0 in (s.1, IN_B, s.2, ON)
        else ([], ch0, reg0, previousButton1 ls.1)
      else ([], ch0, reg0, OFF) in
    let pb2 :=
      if BUTTON2 scan then (if ls.2 =? OFF then ON else ls.2) else OFF in
    (({| vars := {| filter_vars := filter_vars st;
                    previousNotePerfectValue := previousNotePerfectValue st;
                    inputChannel := ch1;
                    Control_Reg := reg1 |};
         previousButton0 := pb0;
         previousButton1 := pb1 |}, pb2),
     [CapSense_UpdateEnabledBaselines] ++ c0 ++ c1 ++ [CapSense_ScanEnabledWidgets])
  else (ls, []).

(** The variables as [main] leaves them when it enters [while(1)]: the
    filter initialized with the first ADC sample, [In_A] selected, both
    button memories [OFF]; [reg] is what the control register holds. *)
Definition main_init (reg first : Z) : loop_state :=
  {| vars := {| filter_vars := filter_init first;
                previousNotePerfectValue := 0;
                inputChannel := IN_A;
                Control_Reg := reg |};
     previousButton0 := OFF;
     previousButton1 := OFF |}.

(** Does no sample of [samples] trip the slope test, fed one by one? *)
Fixpoint no_reset (f : filter_state) (samples : list Z) : bool :=
  match samples with
  | [] => true
  | result :: rest =>
      negb (diff (averageCounts f) result >? SIGNAL_SLOPE)
      && no_reset (filter_update f result) rest
  end.

(** The blue PWM under a call of the whole loop. *)
Definition blue_of_call (b : blue_pwm) (c : call) : blue_pwm :=
  match c with
  | signal_path e => blue_call b e
  | _ => b
  end.

(** The compare values a trace writes to the two channel LEDs. *)
Definition channel_led_write (c : call) : option Z :=
  match c with
  | signal_path (PWM_Red_WriteCompare v) => Some v
  | signal_path (PWM_Green_WriteCompare v) => Some v
  | _ => None
  end.

Section Loop.

Variable ADC_CountsTo_mVolts : Z -> Z.

(** One iteration of [while(1)]: the CapSense block, then the signal
    path on the sample [result]. *)
Definition loop_iteration (ls : loop_state) (scan : CapSense_scan) (result : Z)
  : option (loop_state * list call) :=
  let ui := CapSense_block scan ls in
  t ← tick ADC_CountsTo_mVolts (vars ui.1) result;
  Some ({| vars := t.1;
           previousButton0 := previousButton0 ui.1;
           previousButton1 := previousButton1 ui.1 |},
        ui.2 ++ map signal_path t.2).

(** The loop over the inputs of successive iterations; [None] once an
    iteration reads [PWM_Lookup] outside the array. *)
Fixpoint main_loop (ls : loop_state) (inputs : list (CapSense_scan * Z))
  : option (loop_state * list call) :=
  match inputs with
  | [] => Some (ls, [])
  | (scan, result) :: rest =>
      it ← loop_iteration ls scan result;
      run ← main_loop it.1 rest;
      Some (run.1, it.2 ++ run.2)
  end.

End Loop.

(** Which of the two channel-LED PWMs run, as the calls leave them. *)
Record channel_leds : Type := mk_leds { red_running : bool; green_running : bool }.

Definition leds_of_call (l : channel_leds) (c : call) : channel_leds :=
  match c with
  | PWM_Red_Start => {| red_running := true; green_running := green_running l |}
  | PWM_Red_Stop => {| red_running := false; green_running := green_running l |}
  | PWM_Green_Start => {| red_running := red_running l; green_running := true |}
  | PWM_Green_Stop => {| red_running := red_running l; green_running := false |}
  | _ => l
  end.

(** The LED of the selected channel runs, the other one does not. *)
Definition leds_match_channel (l : channel_leds) (inputChannel : Z) : Prop :=
  red_running l = (inputChannel =? IN_A)
  /\ green_running l = (inputChannel =? IN_B).

(** What holds of the variables at the head of every loop iteration;
    [reg] is the value of the control register at the start. *)
Record loop_inv (reg : Z) (ls : loop_state) : Prop := mk_loop_inv {
  loop_filter : filter_inv (filter_vars (vars ls));
  loop_channel : inputChannel (vars ls) = IN_A \/ inputChannel (vars ls) = IN_B;
  loop_step : 0 <= previousNotePerfectValue (vars ls) <= 60;
  loop_reg : Control_Reg (vars ls) = reg;
  loop_button0 : previousButton0 ls = OFF \/ previousButton0 ls = ON;
  loop_button1 : previousButton1 ls = OFF \/ previousButton1 ls = ON
}.

(** The facts about one reset pulse that the proofs use, as a test on
    a register value and a mask. *)
Definition reset_pulse_check (reg mask : Z) : bool :=
  let p := reset_pulse reg mask in
  (p.1 =? Z.lor reg mask)
  && (p.2 =? Z.land reg (Z.lnot mask))
  && (0 <=? p.2) && (p.2 <=? reg)
  && (Z.land p.2 mask =? 0)
  && (Z.land p.2 (Z.lnot mask) =? Z.land reg (Z.lnot mask))
  && ((negb (Z.land reg mask =? 0)) || (p.2 =? reg)).

(** Clearing the bits [k] of an 8-bit register value: the facts the
    proofs use, as a test. *)
Definition clear_bits_check (reg k : Z) : bool :=
  let r := Z.land reg (Z.lnot k) in
  (0 <=? r) && (r <=? reg)
  && (Z.land r (Z.lnot 7) =? Z.land reg (Z.lnot 7))
  && ((negb (Z.land reg 7 =? 0)) || (r =? reg)).

(** The calls of a whole iteration that carry the quantized output:
    those of the signal path, whoever makes them. *)
Definition primary_call (c : call) : bool :=
  match c with
  | signal_path e => primary_output e
  | _ => false
  end.

(** Do the filtered millivolts stay within the table's range, 0 to
    5020 mV, in every iteration that reads one of [samples]?  The
    filter goes from [f] through the samples in order. *)
Fixpoint millivolts_in_table (ADC_CountsTo_mVolts : Z -> Z)
    (f : filter_state) (samples : list Z) : Prop :=
  match samples with
  | [] => True
  | result :: rest =>
      0 <= to_int32 (ADC_CountsTo_mVolts (averageCounts (filter_update f result))) <= 5020
      /\ millivolts_in_table ADC_CountsTo_mVolts (filter_update f result) rest
  end.

(** * Properties *)

(** ** Machine integers *)

Lemma to_uint32_small x : 0 <= x < 2 ^ 32 -> to_uint32 x = x.
Proof. intros H. unfold to_uint32, to_unsigned. now apply Z.mod_small. Qed.

Lemma to_uint32_neg x : - 2 ^ 32 <= x < 0 -> to_uint32 x = x + 2 ^ 32.
Proof.
  intros H. unfold to_uint32, to_unsigned.
  symmetry. apply (Z.mod_unique x (2 ^ 32) (-1) (x + 2 ^ 32)); lia.
Qed.

Lemma to_uint8_small x : 0 <= x < 2 ^ 8 -> to_uint8 x = x.
Proof. intros H. unfold to_uint8, to_unsigned. now apply Z.mod_small. Qed.

Lemma to_int32_small x : int32_range x -> to_int32 x = x.
Proof.
  unfold int32_range, INT32_MIN, INT32_MAX, to_int32, to_signed.
  intros H. rewrite Z.mod_small; lia.
Qed.

Lemma to_int16_small x : - 2 ^ 15 <= x < 2 ^ 15 -> to_int16 x = x.
Proof.
  unfold to_int16, to_signed. intros H. rewrite Z.mod_small; lia.
Qed.

(** ** The constants and the table *)

Lemma step_size_value : NOTEPERFECT_STEP_SIZE_MV = 83.
Proof. reflexivity. Qed.

Lemma correction_window_value : CORRECTION_WINDOW = 20.
Proof. reflexivity. Qed.

Lemma PWM_Lookup_length : length PWM_Lookup = 61%nat.
Proof. reflexivity. Qed.

Lemma PWM_Lookup_at_Some i t :
  PWM_Lookup_at i = Some t -> 0 <= i <= 60 /\ PWM_Lookup !! Z.to_nat i = Some t.
Proof.
  unfold PWM_Lookup_at. rewrite PWM_Lookup_length.
  destruct (Z.leb_spec 0 i); destruct (Z.ltb_spec i (Z.of_nat 61)); simpl; try discriminate.
  intros Hi. split; [lia | exact Hi].
Qed.

Lemma PWM_Lookup_at_None i : i < 0 \/ 60 < i -> PWM_Lookup_at i = None.
Proof.
  unfold PWM_Lookup_at. rewrite PWM_Lookup_length. intros Hi.
  destruct (Z.leb_spec 0 i); destruct (Z.ltb_spec i (Z.of_nat 61)); simpl; auto; lia.
Qed.

(** Every entry in range sits between [i * 83] and [i * 83 + 20], and is
    5000 * i / 60 rounded to the nearest integer. *)
Lemma PWM_Lookup_at_in_range i :
  0 <= i <= 60 ->
  exists t, PWM_Lookup_at i = Some t
            /\ t = (i * 5000 + 30) / 60
            /\ i * 83 <= t <= i * 83 + 20.
Proof.
  intros H.
  assert (Hn : exists n : nat, i = Z.of_nat n /\ (n < 61)%nat).
  { exists (Z.to_nat i). lia. }
  destruct Hn as (n & -> & Hn).
  do 61 (destruct n as [|n];
         [eexists; split; [reflexivity | split; [reflexivity | vm_compute; split; discriminate]] |]).
  lia.
Qed.

Lemma strictly_increasing_cons_lookup x l :
  strictly_increasing (x :: l) = true ->
  forall (j : nat) b, l !! j = Some b -> x < b.
Proof.
  revert x. induction l as [|y l IH]; intros x H j b Hj; [discriminate Hj|].
  cbn [strictly_increasing] in H. apply andb_true_iff in H as [Hxy Hl].
  apply Z.ltb_lt in Hxy. destruct j as [|j]; cbn in Hj.
  - injection Hj as <-. exact Hxy.
  - specialize (IH y Hl j b Hj). lia.
Qed.

Lemma strictly_increasing_lookup (l : list Z) :
  strictly_increasing l = true ->
  forall (i j : nat) a b, l !! i = Some a -> l !! j = Some b -> (i < j)%nat -> a < b.
Proof.
  induction l as [|x l IH]; intros H i j a b Hi Hj Hlt; [discriminate Hi|].
  destruct j as [|j]; [lia|]. cbn in Hj.
  destruct i as [|i]; cbn in Hi.
  - injection Hi as <-. eapply strictly_increasing_cons_lookup; eauto.
  - assert (Hl : strictly_increasing l = true).
    { destruct l; [reflexivity|]. cbn [strictly_increasing] in H.
      apply andb_true_iff in H as [_ H]. exact H. }
    apply (IH Hl i j a b Hi Hj). lia.
Qed.

(** ** The quantizer *)

(** On a non-negative [int32] the conversions change nothing: the step
    is the quotient by 83, plus one when the remainder reaches 41. *)
Lemma notePerfectValue_nonneg mv :
  0 <= mv <= INT32_MAX ->
  notePerfectValue mv = mv / 83 + (if mv mod 83 >=? 41 then 1 else 0).
Proof.
  unfold INT32_MAX. intros H.
  unfold notePerfectValue, remainder. rewrite step_size_value.
  change (83 / 2) with 41.
  assert (Hq : 0 <= mv / 83 < 2 ^ 31) by (split; [apply Z.div_pos | apply Z.div_lt_upper_bound]; lia).
  assert (Hr : 0 <= mv mod 83 < 83) by (apply Z.mod_pos_bound; lia).
  rewrite (to_uint32_small mv) by lia.
  rewrite (to_uint32_small (mv / 83)) by lia.
  rewrite (to_uint32_small (mv mod 83)) by lia.
  destruct (mv mod 83 >=? 41); [|lia].
  apply to_uint32_small. lia.
Qed.

(** A negative [int32] is divided as the unsigned value [mv + 2^32]:
    the step is beyond twenty-five million. *)
Lemma notePerfectValue_neg mv :
  INT32_MIN <= mv < 0 -> 25873296 <= notePerfectValue mv.
Proof.
  unfold INT32_MIN. intros H.
  unfold notePerfectValue, remainder. rewrite step_size_value.
  rewrite (to_uint32_neg mv) by lia.
  assert (Hq : 25873296 <= (mv + 2 ^ 32) / 83 < 2 ^ 31).
  { split; [apply Z.div_le_lower_bound | apply Z.div_lt_upper_bound]; lia. }
  rewrite (to_uint32_small ((mv + 2 ^ 32) / 83)) by lia.
  destruct (_ >=? _); [|lia].
  rewrite to_uint32_small; lia.
Qed.

Lemma notePerfectValue_in_table mv :
  0 <= mv <= 5020 -> 0 <= notePerfectValue mv <= 60.
Proof.
  intros H. rewrite notePerfectValue_nonneg by (unfold INT32_MAX; lia).
  destruct (mv mod 83 >=? 41) eqn:E; Z.to_euclidean_division_equations; lia.
Qed.

Lemma notePerfectValue_past_table mv :
  5020 < mv <= INT32_MAX -> 60 < notePerfectValue mv.
Proof.
  intros H. rewrite notePerfectValue_nonneg by lia.
  destruct (mv mod 83 >=? 41) eqn:E; Z.to_euclidean_division_equations; lia.
Qed.

Lemma lookup_in_table_iff mv :
  int32_range mv ->
  (is_Some (PWM_Lookup_at (notePerfectValue mv)) <-> 0 <= mv <= 5020).
Proof.
  unfold int32_range. intros H. split.
  - intros [t Ht]. apply PWM_Lookup_at_Some in Ht as [Ht _].
    destruct (Z_lt_le_dec mv 0) as [Hneg|Hpos].
    + pose proof (notePerfectValue_neg mv). lia.
    + destruct (Z_le_gt_dec mv 5020) as [|Hbig]; [lia|].
      pose proof (notePerfectValue_past_table mv). lia.
  - intros Hmv. destruct (PWM_Lookup_at_in_range (notePerfectValue mv)) as (t & Ht & _).
    + now apply notePerfectValue_in_table.
    + rewrite Ht. eauto.
Qed.

(** ** The filter *)

Lemma MAX_SAMPLE_value : MAX_SAMPLE = 128.
Proof. reflexivity. Qed.

(** The loop overwrites the slots from [i] on and leaves the ones before. *)
Lemma fill_loop_spec fuel : forall i a v,
  0 <= i <= 128 ->
  (Z.to_nat (128 - i) < fuel)%nat ->
  length a = 128%nat ->
  fill_loop fuel i a v = take (Z.to_nat i) a ++ replicate (Z.to_nat (128 - i)) v.
Proof.
  induction fuel as [|fuel IH]; intros i a v Hi Hfuel Hlen; [lia|].
  cbn [fill_loop]. rewrite MAX_SAMPLE_value.
  destruct (Z.ltb_spec i 128) as [Hlt|Hge].
  - rewrite to_uint8_small by lia.
    rewrite IH by (rewrite ?length_insert; lia).
    replace (Z.to_nat (i + 1)) with (S (Z.to_nat i)) by lia.
    replace (Z.to_nat (128 - i)) with (S (Z.to_nat (128 - (i + 1)))) by lia.
    rewrite (take_S_r _ _ v) by (apply list_lookup_insert_eq; lia).
    rewrite take_insert_ge by lia.
    rewrite <- app_assoc. reflexivity.
  - replace i with 128 by lia. cbn [Z.sub Z.to_nat replicate Z.add Z.opp Z.pos_sub].
    change (Z.to_nat (128 - 128)) with 0%nat. cbn [replicate].
    rewrite app_nil_r, take_ge by lia. reflexivity.
Qed.

Lemma fill_replicate a v : length a = 128%nat -> fill a v = replicate 128 v.
Proof.
  intros Hlen. unfold fill. rewrite fill_loop_spec by (cbn; lia). reflexivity.
Qed.

Lemma buffer_sum_replicate n v : buffer_sum (replicate n v) = Z.of_nat n * v.
Proof.
  induction n as [|n IH]; [reflexivity|].
  cbn [replicate buffer_sum foldr]. fold (buffer_sum (replicate n v)). lia.
Qed.

Lemma buffer_sum_insert a : forall (i : nat) x v,
  a !! i = Some x -> buffer_sum (<[i := v]> a) = buffer_sum a - x + v.
Proof.
  unfold buffer_sum.
  induction a as [|y a IH]; intros i x v Hi; [discriminate Hi|].
  destruct i as [|i]; cbn in Hi.
  - injection Hi as ->. cbn. lia.
  - change (y + foldr Z.add 0 (<[i := v]> a) = y + foldr Z.add 0 a - x + v).
    rewrite (IH i x v Hi). lia.
Qed.

Lemma buffer_sum_bounds a :
  Forall sample_range a ->
  - 2 ^ 24 * Z.of_nat (length a) <= buffer_sum a <= (2 ^ 24 - 1) * Z.of_nat (length a).
Proof.
  induction 1 as [|x a Hx Ha IH]; [cbn; lia|].
  unfold sample_range in Hx. cbn [buffer_sum foldr length].
  fold (buffer_sum a). lia.
Qed.

Lemma shiftl_DIV x : Z.shiftl x DIV = x * 128.
Proof. unfold DIV. rewrite Z.shiftl_mul_pow2 by lia. reflexivity. Qed.

Lemma shiftr_DIV_mul x : Z.shiftr (x * 128) DIV = x.
Proof.
  unfold DIV. rewrite Z.shiftr_div_pow2 by lia.
  change (2 ^ 7) with 128. apply Z.div_mul. lia.
Qed.

Lemma reset_sum_exact r : sample_range r -> to_int32 (Z.shiftl r DIV) = r * 128.
Proof.
  unfold sample_range. intros H. rewrite shiftl_DIV.
  apply to_int32_small. unfold int32_range, INT32_MIN, INT32_MAX. lia.
Qed.

Lemma adcCounts_zero_length : length adcCounts_zero = 128%nat.
Proof. reflexivity. Qed.

(** The state both the initialization and the slope reset produce. *)
Lemma refilled_inv a r :
  length a = 128%nat -> sample_range r ->
  filter_inv {| adcCounts := fill a r;
                sum := to_int32 (Z.shiftl r DIV);
                averageCounts := r;
                index := 0 |}.
Proof.
  intros Hlen Hr. rewrite (fill_replicate a r Hlen), (reset_sum_exact r Hr).
  constructor; cbn [adcCounts sum averageCounts index].
  - apply length_replicate.
  - now apply Forall_replicate.
  - rewrite buffer_sum_replicate. lia.
  - now rewrite shiftr_DIV_mul.
  - rewrite MAX_SAMPLE_value. lia.
Qed.

(** Outside [sample_range] the shifted sum no longer fits [int32]. *)
Lemma filter_init_sum_wraps :
  averageCounts (filter_init (2 ^ 24)) = 2 ^ 24
  /\ Z.shiftr (sum (filter_init (2 ^ 24))) DIV = - 2 ^ 24.
Proof. split; reflexivity. Qed.

Lemma filter_init_inv r : sample_range r -> filter_inv (filter_init r).
Proof.
  intros Hr. unfold filter_init.
  apply (refilled_inv adcCounts_zero r adcCounts_zero_length Hr).
Qed.

Lemma filter_update_inv f r :
  filter_inv f -> sample_range r -> filter_inv (filter_update f r).
Proof.
  intros [Hlen Hrange Hsum Havg Hidx] Hr. unfold filter_update.
  destruct (diff (averageCounts f) r >? SIGNAL_SLOPE).
  - now apply refilled_inv.
  - rewrite MAX_SAMPLE_value in Hidx.
    destruct (lookup_lt_is_Some_2 (adcCounts f) (Z.to_nat (index f))) as [x Hx]; [lia|].
    cbv zeta. rewrite Hx. cbn [default from_option id].
    pose proof (buffer_sum_insert _ _ _ 0 Hx) as Hwithout.
    pose proof (buffer_sum_insert _ _ _ r Hx) as Hwith.
    assert (H0 : sample_range 0) by (unfold sample_range; lia).
    assert (Hb0 := buffer_sum_bounds _
                     (Forall_insert _ _ (Z.to_nat (index f)) 0 Hrange H0)).
    assert (Hb1 := buffer_sum_bounds _
                     (Forall_insert _ _ (Z.to_nat (index f)) r Hrange Hr)).
    rewrite length_insert, Hlen in Hb0, Hb1.
    rewrite (to_int32_small (sum f - x))
      by (unfold int32_range, INT32_MIN, INT32_MAX; lia).
    rewrite (to_int32_small (sum f - x + r))
      by (unfold int32_range, INT32_MIN, INT32_MAX; lia).
    constructor; cbn [adcCounts sum averageCounts index].
    + now rewrite length_insert.
    + now apply Forall_insert.
    + lia.
    + reflexivity.
    + rewrite MAX_SAMPLE_value, to_uint8_small by lia.
      destruct (Z.eqb_spec (index f + 1) 128); lia.
Qed.

Lemma filter_run_inv first samples :
  sample_range first -> Forall sample_range samples ->
  filter_inv (filter_run first samples).
Proof.
  intros Hfirst Hsamples. unfold filter_run.
  generalize (filter_init first) (filter_init_inv first Hfirst).
  induction Hsamples as [|r samples Hr _ IH]; intros f Hf; [exact Hf|].
  cbn [fold_left]. apply IH. now apply filter_update_inv.
Qed.

Lemma diff_same s : diff s s = 0.
Proof. unfold diff. replace (s - s) with 0 by lia. reflexivity. Qed.

(** While the narrowed difference is exact (below 2^15), a difference
    above the threshold refills the filter with the new sample. *)
Lemma slope_reset_within_int16 f r :
  length (adcCounts f) = 128%nat ->
  SIGNAL_SLOPE < Z.abs (averageCounts f - r) < 2 ^ 15 ->
  filter_update f r =
    {| adcCounts := replicate 128 r;
       sum := to_int32 (Z.shiftl r DIV);
       averageCounts := r;
       index := 0 |}.
Proof.
  intros Hlen Hd. unfold filter_update, diff, abs.
  rewrite (to_int32_small (averageCounts f - r))
    by (unfold int32_range, INT32_MIN, INT32_MAX; lia).
  rewrite (to_int32_small (Z.abs _))
    by (unfold int32_range, INT32_MIN, INT32_MAX; lia).
  rewrite to_int16_small by lia.
  destruct (Z.gtb_spec (Z.abs (averageCounts f - r)) SIGNAL_SLOPE) as [_|Hle]; [|lia].
  now rewrite fill_replicate.
Qed.

(** A filter whose window holds one value keeps it under that value. *)
Lemma settled_update s f :
  sample_range s ->
  adcCounts f = replicate 128 s -> sum f = s * 128 -> averageCounts f = s ->
  0 <= index f < 128 ->
  let f' := filter_update f s in
  adcCounts f' = replicate 128 s /\ sum f' = s * 128 /\ averageCounts f' = s
  /\ 0 <= index f' < 128.
Proof.
  unfold sample_range. intros Hs Ha Hsum Havg Hidx. unfold filter_update.
  rewrite Havg, diff_same. change (0 >? SIGNAL_SLOPE) with false. cbv iota zeta.
  rewrite Ha, lookup_replicate_2 by lia. cbn [default from_option id].
  rewrite Hsum, insert_replicate.
  rewrite (to_int32_small (s * 128 - s))
    by (unfold int32_range, INT32_MIN, INT32_MAX; lia).
  replace (s * 128 - s + s) with (s * 128) by lia.
  rewrite (to_int32_small (s * 128))
    by (unfold int32_range, INT32_MIN, INT32_MAX; lia).
  cbn [adcCounts sum averageCounts index].
  rewrite shiftr_DIV_mul, MAX_SAMPLE_value, to_uint8_small by lia.
  repeat split; try reflexivity; destruct (Z.eqb_spec (index f + 1) 128); lia.
Qed.

Lemma settled_run s n : forall f,
  sample_range s ->
  adcCounts f = replicate 128 s -> sum f = s * 128 -> averageCounts f = s ->
  0 <= index f < 128 ->
  averageCounts (fold_left filter_update (replicate n s) f) = s.
Proof.
  induction n as [|n IH]; intros f Hs Ha Hsum Havg Hidx; [exact Havg|].
  cbn [replicate fold_left].
  destruct (settled_update s f Hs Ha Hsum Havg Hidx) as (Ha' & Hsum' & Havg' & Hidx').
  now apply IH.
Qed.

(** ** The correction test *)

(** At step 0 the lower bound [0 - 20u] wraps to 4294967276: every
    non-negative voltage is below it. *)
Lemma correction_applied_step0 mv :
  0 <= mv <= INT32_MAX -> correction_applied mv 0 = true.
Proof.
  unfold INT32_MAX. intros H. unfold correction_applied.
  rewrite correction_window_value, (to_uint32_small mv) by lia.
  change (to_uint32 (0 - 20)) with 4294967276.
  apply orb_true_iff. right. apply Z.ltb_lt. lia.
Qed.

(** From step 1 on neither bound wraps and the test is the window test. *)
Lemma correction_applied_no_wrap mv t :
  0 <= mv <= INT32_MAX -> 20 <= t <= 5000 ->
  correction_applied mv t = negb ((t - 20 <=? mv) && (mv <=? t + 20)).
Proof.
  unfold INT32_MAX. intros Hmv Ht. unfold correction_applied.
  rewrite correction_window_value.
  rewrite !to_uint32_small by lia.
  destruct (Z.gtb_spec mv (t + 20)), (Z.ltb_spec mv (t - 20)),
    (Z.leb_spec (t - 20) mv), (Z.leb_spec mv (t + 20)); cbn; try reflexivity; lia.
Qed.

(** Above 20 mV and inside the table the detector is the window test
    around the table value. *)
Lemma correction_active_window mv :
  20 < mv <= 5020 ->
  exists t, PWM_Lookup_at (notePerfectValue mv) = Some t
            /\ correction_active mv = Some (negb ((t - 20 <=? mv) && (mv <=? t + 20))).
Proof.
  intros H.
  destruct (Z_le_gt_dec mv 40) as [Hlow|Hhigh].
  - assert (Hstep : notePerfectValue mv = 0).
    { rewrite notePerfectValue_nonneg by (unfold INT32_MAX; lia).
      destruct (mv mod 83 >=? 41) eqn:E; Z.to_euclidean_division_equations; lia. }
    exists 0. unfold correction_active. rewrite Hstep.
    change (PWM_Lookup_at 0) with (Some 0). split; [reflexivity|]. cbn.
    rewrite correction_applied_step0 by (unfold INT32_MAX; lia).
    destruct (Z.leb_spec (0 - 20) mv), (Z.leb_spec mv (0 + 20)); cbn; try reflexivity; lia.
  - assert (Hstep : 1 <= notePerfectValue mv <= 60).
    { pose proof (notePerfectValue_in_table mv ltac:(lia)) as Hin.
      rewrite notePerfectValue_nonneg in * by (unfold INT32_MAX; lia).
      destruct (mv mod 83 >=? 41) eqn:E; Z.to_euclidean_division_equations; lia. }
    destruct (PWM_Lookup_at_in_range (notePerfectValue mv)) as (t & Ht & _ & Hb); [lia|].
    exists t. split; [exact Ht|]. unfold correction_active. rewrite Ht. cbn.
    f_equal. apply correction_applied_no_wrap; unfold INT32_MAX; lia.
Qed.

(** ** One loop iteration *)

Lemma PWM_Lookup_at_1 : PWM_Lookup_at 1 = Some 83.
Proof. reflexivity. Qed.

Lemma led_housekeeping_in_table ch npv t :
  PWM_Lookup_at npv = Some t ->
  led_housekeeping ch npv =
    Some (if IN_A =? ch then [PWM_Red_WriteCompare (if 0 =? npv then 83 else t)]
          else if IN_B =? ch then [PWM_Green_WriteCompare (if 0 =? npv then 83 else t)]
          else []).
Proof.
  intros Ht. unfold led_housekeeping. rewrite Ht, PWM_Lookup_at_1.
  destruct (IN_A =? ch), (IN_B =? ch), (0 =? npv); reflexivity.
Qed.

Lemma step_changed_in_table ch npv t :
  PWM_Lookup_at npv = Some t ->
  exists led, led_housekeeping ch npv = Some led
    /\ step_changed ch npv =
         Some ([PWM_WriteCompare t] ++ led
               ++ [LCD_Position 1 12; LCD_PrintString (fmt_4d t);
                   LCD_Position 0 14; LCD_PrintString (fmt_2ld npv)]).
Proof.
  intros Ht. pose proof (led_housekeeping_in_table ch npv t Ht) as Hled.
  eexists. split; [exact Hled|].
  unfold step_changed. rewrite Ht, Hled. reflexivity.
Qed.

Lemma blue_led_in_table reg mv npv t :
  PWM_Lookup_at npv = Some t ->
  exists v, PWM_Lookup_at (Z.min npv 10) = Some v
    /\ blue_led reg mv npv =
         Some (if correction_applied mv t
               then ([PWM_Blue_WriteCompare v; PWM_Blue_Start], reg)
               else ([Control_Reg_Write (to_uint8 (Z.lor reg BLUE_CTRL));
                      PWM_Blue_Stop;
                      Control_Reg_Write
                        (to_uint8 (Z.land (to_uint8 (Z.lor reg BLUE_CTRL)) (Z.lnot BLUE_CTRL)))],
                     to_uint8 (Z.land (to_uint8 (Z.lor reg BLUE_CTRL)) (Z.lnot BLUE_CTRL)))).
Proof.
  intros Ht. pose proof (PWM_Lookup_at_Some _ _ Ht) as [Hnpv _].
  destruct (PWM_Lookup_at_in_range (Z.min npv 10)) as (v & Hv & _); [lia|].
  exists v. split; [exact Hv|].
  unfold blue_led. rewrite Ht. cbn.
  destruct (correction_applied mv t); [|reflexivity].
  destruct (Z.gtb_spec npv 10) as [Hgt|Hle].
  - rewrite Z.min_r in Hv by lia. rewrite Hv. reflexivity.
  - rewrite Z.min_l in Hv by lia. rewrite Ht in Hv. injection Hv as ->. reflexivity.
Qed.

(** No call of the step-change block or of the telemetry touches the
    blue PWM. *)
Lemma blue_call_step_changed ch npv evs b :
  step_changed ch npv = Some evs -> fold_left blue_call evs b = b.
Proof.
  intros H. destruct (PWM_Lookup_at npv) as [t|] eqn:Ht.
  - destruct (step_changed_in_table ch npv t Ht) as (led & Hled & Hsc).
    rewrite Hsc in H. injection H as <-.
    rewrite (led_housekeeping_in_table ch npv t Ht) in Hled. injection Hled as <-.
    destruct ch as [|[p|p|]|p]; destruct b; reflexivity.
  - unfold step_changed in H. rewrite Ht in H. discriminate.
Qed.

(** * The claims *)

(** C1 (the code at the claim's step-0 case).  At step 0 the lower
    bound of the window is computed as the unsigned [0 - 20u] and wraps:
    every filtered voltage from 0 to 20 mV quantizes to step 0, whose
    table value is 0, lies inside the closed interval [0 - 20, 0 + 20],
    and is nevertheless reported as correction active. *)
Theorem C1_step0_window_wraps mv :
  0 <= mv <= CORRECTION_WINDOW ->
  notePerfectValue mv = 0
  /\ PWM_Lookup_at (notePerfectValue mv) = Some 0
  /\ (0 - CORRECTION_WINDOW <= mv <= 0 + CORRECTION_WINDOW)
  /\ correction_active mv = Some true.
Proof.
  rewrite correction_window_value. intros H.
  assert (Hstep : notePerfectValue mv = 0).
  { rewrite notePerfectValue_nonneg by (unfold INT32_MAX; lia).
    destruct (mv mod 83 >=? 41) eqn:E; Z.to_euclidean_division_equations; lia. }
  unfold correction_active. rewrite Hstep. repeat split; try lia; try reflexivity.
  change (PWM_Lookup_at 0) with (Some 0). cbn.
  rewrite correction_applied_step0 by (unfold INT32_MAX; lia). reflexivity.
Qed.

Lemma C1_step0_window_wraps_witness :
  0 <= 10 <= CORRECTION_WINDOW /\ correction_active 10 = Some true.
Proof.
  assert (H : 0 <= 10 <= CORRECTION_WINDOW) by (rewrite correction_window_value; lia).
  split; [exact H | exact (proj2 (proj2 (proj2 (C1_step0_window_wraps 10 H))))].
Defined.

(** C2 (counterexample).  41 mV has remainder 41, which reaches the
    threshold 83 / 2 = 41: the quantizer gives step 1, not step 0. *)
Lemma C2_41mV_is_step_1 : notePerfectValue 41 = 1 /\ notePerfectValue 41 <> 0.
Proof. split; [reflexivity|]. change (notePerfectValue 41) with 1. discriminate. Qed.

(** C2 (amended).  For every non-negative filtered voltage the step is
    [mv / 83], plus one when [mv mod 83 >= 41], where 83 is the step size
    and 41 its integer half; so 0 mV and 40 mV map to step 0, 41 mV,
    42 mV and 82 mV to step 1, and 5000 mV to step 60. *)
Theorem C2_quantizer_rounding mv :
  0 <= mv <= INT32_MAX ->
  notePerfectValue mv
    = mv / NOTEPERFECT_STEP_SIZE_MV
      + (if mv mod NOTEPERFECT_STEP_SIZE_MV >=? NOTEPERFECT_STEP_SIZE_MV / 2 then 1 else 0)
  /\ NOTEPERFECT_STEP_SIZE_MV = 83
  /\ NOTEPERFECT_STEP_SIZE_MV / 2 = 41
  /\ notePerfectValue 0 = 0 /\ notePerfectValue 40 = 0
  /\ notePerfectValue 41 = 1 /\ notePerfectValue 42 = 1
  /\ notePerfectValue 82 = 1 /\ notePerfectValue 5000 = 60.
Proof.
  intros H. split; [|repeat split; reflexivity].
  rewrite step_size_value. change (83 / 2) with 41.
  now apply notePerfectValue_nonneg.
Qed.

Lemma C2_quantizer_rounding_witness :
  0 <= 4999 <= INT32_MAX
  /\ notePerfectValue 4999 = 4999 / 83 + (if 4999 mod 83 >=? 41 then 1 else 0).
Proof.
  assert (H : 0 <= 4999 <= INT32_MAX) by (unfold INT32_MAX; lia).
  split; [exact H | exact (proj1 (C2_quantizer_rounding 4999 H))].
Defined.

(** C3 (the code at a failing input).  With the average at 0 and a new
    sample of 40000 the absolute difference, 40000, exceeds the
    threshold 1000, but narrowed to [int16] it reads -25536: the filter
    does not reset.  It takes the sliding branch, the window keeps 127
    old zeros, and the average is 312, not 40000. *)
Theorem C3_slope_reset_missed_by_int16 :
  averageCounts (filter_init 0) = 0
  /\ Z.abs (averageCounts (filter_init 0) - 40000) > SIGNAL_SLOPE
  /\ diff (averageCounts (filter_init 0)) 40000 = -25536
  /\ averageCounts (filter_update (filter_init 0) 40000) = 312
  /\ sum (filter_update (filter_init 0) 40000) = 40000
  /\ index (filter_update (filter_init 0) 40000) = 1
  /\ adcCounts (filter_update (filter_init 0) 40000) = 40000 :: replicate 127 0.
Proof. vm_compute. repeat split; reflexivity. Qed.

(** C4 (counterexample).  The third entry is 167, while twice the step
    size is 166. *)
Lemma C4_entry_2_is_167 :
  PWM_Lookup_at 2 = Some 167 /\ 167 <> 2 * NOTEPERFECT_STEP_SIZE_MV.
Proof. split; [reflexivity | discriminate]. Qed.

(** C4 (amended).  The table has 12 * 5 + 1 = 61 entries and is strictly
    increasing; the step size is (5 * 1000) / 60 = 83; entry [i] is
    5000 * i / 60 rounded to the nearest integer, which lies between
    [i * 83] and [i * 83 + 20] (0, 83, 167, 250, ..., 5000). *)
Theorem C4_table_shape :
  Z.of_nat (length PWM_Lookup) = NUMBER_NOTES_PER_VOLT * MAX_CONTROL_VOLTAGE + 1
  /\ length PWM_Lookup = 61%nat
  /\ NOTEPERFECT_STEP_SIZE_MV = (5 * 1000) / 60
  /\ NOTEPERFECT_STEP_SIZE_MV = 83
  /\ (forall i j a b,
        PWM_Lookup_at i = Some a -> PWM_Lookup_at j = Some b -> i < j -> a < b)
  /\ (forall i, 0 <= i <= 60 ->
        exists t, PWM_Lookup_at i = Some t
                  /\ t = (i * 5000 + 30) / 60
                  /\ i * NOTEPERFECT_STEP_SIZE_MV <= t <= i * NOTEPERFECT_STEP_SIZE_MV + 20).
Proof.
  repeat split; try reflexivity.
  - intros i j a b Hi Hj Hlt.
    apply PWM_Lookup_at_Some in Hi as [Hi Ha], Hj as [Hj Hb].
    apply (strictly_increasing_lookup PWM_Lookup ltac:(reflexivity)
             (Z.to_nat i) (Z.to_nat j) a b Ha Hb). lia.
  - intros i Hi. rewrite step_size_value. now apply PWM_Lookup_at_in_range.
Qed.

Lemma C4_table_shape_witness :
  0 <= 2 <= 60 /\ exists t, PWM_Lookup_at 2 = Some t /\ t = (2 * 5000 + 30) / 60.
Proof.
  assert (H : 0 <= 2 <= 60) by lia.
  split; [exact H|].
  destruct (proj2 (proj2 (proj2 (proj2 (proj2 C4_table_shape)))) 2 H) as (t & Ht & Hr & _).
  exists t. split; [exact Ht | exact Hr].
Defined.

(** C5.  From initialization on, after every filter update, whichever
    branch it took, the running sum equals the sum of the 128 buffer
    slots recomputed from the buffer, the buffer has 128 slots, and the
    average is [sum >> 7]; the samples are ADC codes, whose 128-fold sum
    fits [int32]. *)
Theorem C5_running_sum_consistent first samples :
  sample_range first -> Forall sample_range samples ->
  sum (filter_run first samples) = buffer_sum (adcCounts (filter_run first samples))
  /\ length (adcCounts (filter_run first samples)) = 128%nat
  /\ averageCounts (filter_run first samples)
     = Z.shiftr (sum (filter_run first samples)) 7.
Proof.
  intros Hfirst Hsamples.
  destruct (filter_run_inv first samples Hfirst Hsamples) as [Hlen _ Hsum Havg _].
  auto.
Qed.

Lemma C5_running_sum_consistent_witness :
  sum (filter_run 100 [105; 40000; 2500; 2400; 3401; 3000])
  = buffer_sum (adcCounts (filter_run 100 [105; 40000; 2500; 2400; 3401; 3000]))
  /\ averageCounts (filter_run 100 [105; 40000; 2500; 2400; 3401; 3000])
     = Z.shiftr (sum (filter_run 100 [105; 40000; 2500; 2400; 3401; 3000])) 7.
Proof.
  assert (H1 : sample_range 100) by (unfold sample_range; lia).
  assert (H2 : Forall sample_range [105; 40000; 2500; 2400; 3401; 3000])
    by (repeat constructor; unfold sample_range; lia).
  destruct (C5_running_sum_consistent 100 _ H1 H2) as (Hs & _ & Ha).
  split; [exact Hs | exact Ha].
Defined.

(** C6 (counterexample).  -83 mV is below the maximum of 5000 mV; its
    step index, computed on the unsigned value, is 51746593 and the
    table read falls outside the 61 entries. *)
Lemma C6_negative_input_outside_table :
  -83 <= 5000
  /\ int32_range (-83)
  /\ notePerfectValue (-83) = 51746593
  /\ PWM_Lookup_at (notePerfectValue (-83)) = None.
Proof.
  split; [lia|]. split; [unfold int32_range, INT32_MIN, INT32_MAX; lia|].
  split; [reflexivity|]. apply PWM_Lookup_at_None. right. reflexivity.
Qed.

(** C6 (amended).  For every filtered input from 0 mV up to the maximum
    5000 mV, and for 5001 mV, one unit above it, the step index is in
    [0, 60] and the lookup reads an entry of the table; 5001 mV gives the
    last step, 60, by rounding down.  Nothing clamps the index: 5021 mV
    gives step 61, past the last entry. *)
Theorem C6_lookup_within_table mv :
  0 <= mv <= 5001 ->
  0 <= notePerfectValue mv <= 60
  /\ is_Some (PWM_Lookup_at (notePerfectValue mv))
  /\ notePerfectValue 5000 = 60
  /\ notePerfectValue 5001 = 60
  /\ notePerfectValue 5021 = 61
  /\ PWM_Lookup_at (notePerfectValue 5021) = None.
Proof.
  intros H. split; [apply notePerfectValue_in_table; lia|].
  split; [|repeat split; reflexivity].
  apply lookup_in_table_iff; [unfold int32_range, INT32_MIN, INT32_MAX|]; lia.
Qed.

Lemma C6_lookup_within_table_witness :
  0 <= 5001 <= 5001 /\ is_Some (PWM_Lookup_at (notePerfectValue 5001)).
Proof.
  assert (H : 0 <= 5001 <= 5001) by lia.
  split; [exact H | exact (proj1 (proj2 (C6_lookup_within_table 5001 H)))].
Defined.

(** C7.  After initialization with a sample, feeding that same sample
    for any number of iterations leaves the average equal to it; the
    slope test sees a difference of 0 and never resets. *)
Theorem C7_constant_input_average s n :
  sample_range s ->
  averageCounts (filter_init s) = s
  /\ adcCounts (filter_init s) = replicate 128 s
  /\ sum (filter_init s) = s * 128
  /\ (diff s s >? SIGNAL_SLOPE) = false
  /\ averageCounts (filter_run s (replicate n s)) = s.
Proof.
  intros Hs.
  assert (Ha : adcCounts (filter_init s) = replicate 128 s).
  { cbn [filter_init adcCounts]. apply fill_replicate, adcCounts_zero_length. }
  assert (Hsum : sum (filter_init s) = s * 128).
  { cbn [filter_init sum]. now apply reset_sum_exact. }
  repeat split; try assumption.
  - now rewrite diff_same.
  - unfold filter_run. apply settled_run; try assumption; cbn; try reflexivity; lia.
Qed.

Lemma C7_constant_input_average_witness :
  sample_range 524287
  /\ averageCounts (filter_run 524287 (replicate 300 524287)) = 524287.
Proof.
  assert (H : sample_range 524287) by (unfold sample_range; lia).
  split; [exact H|].
  exact (proj2 (proj2 (proj2 (proj2 (C7_constant_input_average 524287 300 H))))).
Defined.

(** C10 (counterexample).  -1 mV is divided as the unsigned value
    4294967295: the step index is 51746594, not 1. *)
Lemma C10_minus_1mV_is_not_step_1 :
  -82 <= -1 <= -1
  /\ notePerfectValue (-1) = 51746594
  /\ notePerfectValue (-1) <> 1.
Proof.
  split; [lia|]. split; [reflexivity|].
  change (notePerfectValue (-1)) with 51746594. discriminate.
Qed.

(** C10 (amended).  The division is carried out on the unsigned value of
    the millivolts, so for every negative [int32] input, from -1 down,
    the step index is above twenty-five million, outside [0, 60], and the
    lookup is out of bounds; the lookup reads an entry of the table
    exactly when 0 <= milliVolts <= 5020. *)
Theorem C10_lookup_precondition mv :
  int32_range mv ->
  (mv < 0 ->
     25873296 <= notePerfectValue mv < 2 ^ 32
     /\ PWM_Lookup_at (notePerfectValue mv) = None)
  /\ (is_Some (PWM_Lookup_at (notePerfectValue mv)) <-> 0 <= mv <= 5020).
Proof.
  intros Hr. split; [|now apply lookup_in_table_iff].
  intros Hneg. unfold int32_range in Hr.
  pose proof (notePerfectValue_neg mv ltac:(lia)) as Hbig.
  split; [split; [exact Hbig|] | apply PWM_Lookup_at_None; lia].
  unfold notePerfectValue. destruct (_ >=? _); apply Z.mod_pos_bound; lia.
Qed.

Lemma C10_lookup_precondition_witness :
  int32_range (-82)
  /\ PWM_Lookup_at (notePerfectValue (-82)) = None
  /\ (is_Some (PWM_Lookup_at (notePerfectValue (-82))) <-> 0 <= -82 <= 5020).
Proof.
  assert (H : int32_range (-82)) by (unfold int32_range, INT32_MIN, INT32_MAX; lia).
  split; [exact H|].
  split; [exact (proj2 (proj1 (C10_lookup_precondition (-82) H) ltac:(lia)))
         | exact (proj2 (C10_lookup_precondition (-82) H))].
Defined.

Section PipelineFacts.

Variable ADC_CountsTo_mVolts : Z -> Z.

Local Abbreviation milliVolts st result := (milliVolts_of ADC_CountsTo_mVolts st result).

(** What an iteration does when its step index is inside the table. *)
Lemma tick_in_table st result t :
  PWM_Lookup_at (notePerfectValue (milliVolts st result)) = Some t ->
  exists led v,
    led_housekeeping (inputChannel st) (notePerfectValue (milliVolts st result)) = Some led
    /\ PWM_Lookup_at (Z.min (notePerfectValue (milliVolts st result)) 10) = Some v
    /\ tick ADC_CountsTo_mVolts st result =
         Some ({| filter_vars := filter_update (filter_vars st) result;
                  previousNotePerfectValue := notePerfectValue (milliVolts st result);
                  inputChannel := inputChannel st;
                  Control_Reg :=
                    if correction_applied (milliVolts st result) t
                    then Control_Reg st
                    else to_uint8 (Z.land (to_uint8 (Z.lor (Control_Reg st) BLUE_CTRL))
                                          (Z.lnot BLUE_CTRL)) |},
               (if notePerfectValue (milliVolts st result) =? previousNotePerfectValue st
                then []
                else [PWM_WriteCompare t] ++ led
                     ++ [LCD_Position 1 12; LCD_PrintString (fmt_4d t);
                         LCD_Position 0 14;
                         LCD_PrintString (fmt_2ld (notePerfectValue (milliVolts st result)))])
               ++ telemetry (milliVolts st result)
               ++ (if correction_applied (milliVolts st result) t
                   then [PWM_Blue_WriteCompare v; PWM_Blue_Start]
                   else [Control_Reg_Write (to_uint8 (Z.lor (Control_Reg st) BLUE_CTRL));
                         PWM_Blue_Stop;
                         Control_Reg_Write
                           (to_uint8 (Z.land (to_uint8 (Z.lor (Control_Reg st) BLUE_CTRL))
                                             (Z.lnot BLUE_CTRL)))])).
Proof.
  intros Ht.
  destruct (step_changed_in_table (inputChannel st) _ t Ht) as (led & Hled & Hchanged).
  destruct (blue_led_in_table (Control_Reg st) (milliVolts st result) _ t Ht)
    as (v & Hv & Hblue).
  exists led, v. split; [exact Hled|]. split; [exact Hv|].
  unfold tick. cbv zeta. rewrite Hchanged, Hblue.
  destruct (Z.eqb_spec (notePerfectValue (milliVolts st result))
              (previousNotePerfectValue st)) as [Heq|Hne];
    destruct (correction_applied (milliVolts st result) t); cbn;
    rewrite <- ?Heq; reflexivity.
Qed.

(** The signal path alone, with its step index in the table: the
    calls that carry the quantized output are made exactly when the
    step index differs from [previousNotePerfectValue]; the millivolt
    display and the blue-LED calls are in the trace every time. *)
Lemma signal_path_outputs_on_step_change st result :
  0 <= milliVolts st result <= 5020 ->
  exists st' changed blue t led,
    tick ADC_CountsTo_mVolts st result
      = Some (st', changed ++ telemetry (milliVolts st result) ++ blue)
    /\ PWM_Lookup_at (notePerfectValue (milliVolts st result)) = Some t
    /\ led_housekeeping (inputChannel st) (notePerfectValue (milliVolts st result)) = Some led
    /\ changed
       = (if notePerfectValue (milliVolts st result) =? previousNotePerfectValue st
          then []
          else [PWM_WriteCompare t] ++ led
               ++ [LCD_Position 1 12; LCD_PrintString (fmt_4d t);
                   LCD_Position 0 14;
                   LCD_PrintString (fmt_2ld (notePerfectValue (milliVolts st result)))])
    /\ existsb primary_output (changed ++ telemetry (milliVolts st result) ++ blue)
       = negb (notePerfectValue (milliVolts st result) =? previousNotePerfectValue st)
    /\ telemetry (milliVolts st result)
       = [LCD_Position 1 0; LCD_PrintString (fmt_4ld (milliVolts st result))]
    /\ ((exists v, blue = [PWM_Blue_WriteCompare v; PWM_Blue_Start]
                   /\ correction_applied (milliVolts st result) t = true)
        \/ blue = [Control_Reg_Write (to_uint8 (Z.lor (Control_Reg st) BLUE_CTRL));
                   PWM_Blue_Stop;
                   Control_Reg_Write
                     (to_uint8 (Z.land (to_uint8 (Z.lor (Control_Reg st) BLUE_CTRL))
                                       (Z.lnot BLUE_CTRL)))]
           /\ correction_applied (milliVolts st result) t = false)
    /\ previousNotePerfectValue st' = notePerfectValue (milliVolts st result).
Proof.
  intros Hmv.
  destruct (PWM_Lookup_at_in_range (notePerfectValue (milliVolts st result)))
    as (t & Ht & _); [now apply notePerfectValue_in_table|].
  destruct (tick_in_table st result t Ht) as (led & v & Hled & Hv & Htick).
  rewrite Htick. do 5 eexists.
  split; [reflexivity|]. split; [exact Ht|]. split; [exact Hled|].
  split; [reflexivity|].
  split.
  - rewrite (led_housekeeping_in_table _ _ t Ht) in Hled. injection Hled as <-.
    destruct (_ =? previousNotePerfectValue st);
      destruct (correction_applied (milliVolts st result) t); reflexivity.
  - split; [reflexivity|]. split; [|reflexivity].
    destruct (correction_applied (milliVolts st result) t);
      [left; exists v; split; reflexivity | right; split; reflexivity].
Qed.

(** C9.  In an iteration whose step index is in the table: when the
    correction test is true the blue PWM is left running with the
    table value at [min(notePerfectValue, 10)] as compare value; when
    it is false the blue PWM is left stopped, so the indicator shows
    nothing (magnitude 0). *)
Theorem C9_blue_led_magnitude st result b :
  0 <= milliVolts st result <= 5020 ->
  exists st' evs t,
    tick ADC_CountsTo_mVolts st result = Some (st', evs)
    /\ PWM_Lookup_at (notePerfectValue (milliVolts st result)) = Some t
    /\ correction_active (milliVolts st result)
       = Some (correction_applied (milliVolts st result) t)
    /\ (correction_applied (milliVolts st result) t = true ->
          blue_running (fold_left blue_call evs b) = true
          /\ PWM_Lookup_at (Z.min (notePerfectValue (milliVolts st result)) 10)
             = Some (correction_magnitude (fold_left blue_call evs b)))
    /\ (correction_applied (milliVolts st result) t = false ->
          blue_running (fold_left blue_call evs b) = false
          /\ correction_magnitude (fold_left blue_call evs b) = 0).
Proof.
  intros Hmv.
  destruct (PWM_Lookup_at_in_range (notePerfectValue (milliVolts st result)))
    as (t & Ht & _); [now apply notePerfectValue_in_table|].
  destruct (tick_in_table st result t Ht) as (led & v & Hled & Hv & Htick).
  destruct (step_changed_in_table (inputChannel st) _ t Ht) as (led' & Hled' & Hchanged).
  rewrite Hled in Hled'. injection Hled' as <-.
  rewrite Htick. do 3 eexists.
  split; [reflexivity|]. split; [exact Ht|].
  split; [unfold correction_active; rewrite Ht; reflexivity|].
  rewrite !fold_left_app.
  assert (Hsame : fold_left blue_call
                    (if notePerfectValue (milliVolts st result) =? previousNotePerfectValue st
                     then []
                     else [PWM_WriteCompare t] ++ led
                          ++ [LCD_Position 1 12; LCD_PrintString (fmt_4d t);
                              LCD_Position 0 14;
                              LCD_PrintString
                                (fmt_2ld (notePerfectValue (milliVolts st result)))]) b = b).
  { destruct (_ =? previousNotePerfectValue st); [reflexivity|].
    eapply blue_call_step_changed. exact Hchanged. }
  rewrite Hsame.
  split; intros Hc; rewrite Hc; cbn; [rewrite Hv|]; split; reflexivity.
Qed.

End PipelineFacts.

Lemma signal_path_outputs_on_step_change_witness :
  0 <= milliVolts_of (fun counts => counts / 200)
         {| filter_vars := filter_init 20000; previousNotePerfectValue := 0;
            inputChannel := IN_A; Control_Reg := 0 |} 20010 <= 5020
  /\ exists st' evs,
       tick (fun counts => counts / 200)
         {| filter_vars := filter_init 20000; previousNotePerfectValue := 0;
            inputChannel := IN_A; Control_Reg := 0 |} 20010 = Some (st', evs)
       /\ existsb primary_output evs = true.
Proof.
  assert (H : 0 <= milliVolts_of (fun counts => counts / 200)
                     {| filter_vars := filter_init 20000; previousNotePerfectValue := 0;
                        inputChannel := IN_A; Control_Reg := 0 |} 20010 <= 5020)
    by (vm_compute; split; discriminate).
  split; [exact H|].
  destruct (signal_path_outputs_on_step_change (fun counts => counts / 200) _ 20010 H)
    as (st' & changed & blue & t & led & Htick & _ & _ & _ & Hprimary & _).
  eexists st', _. split; [exact Htick|].
  rewrite Hprimary. vm_compute. reflexivity.
Defined.

Lemma C9_blue_led_magnitude_witness :
  0 <= milliVolts_of (fun counts => counts / 200)
         {| filter_vars := filter_init 200000; previousNotePerfectValue := 12;
            inputChannel := IN_B; Control_Reg := 0 |} 200100 <= 5020
  /\ exists st' evs,
       tick (fun counts => counts / 200)
         {| filter_vars := filter_init 200000; previousNotePerfectValue := 12;
            inputChannel := IN_B; Control_Reg := 0 |} 200100 = Some (st', evs)
       /\ (blue_running (fold_left blue_call evs {| blue_compare := 833; blue_running := true |})
           = true
           \/ correction_magnitude
                (fold_left blue_call evs {| blue_compare := 833; blue_running := true |}) = 0).
Proof.
  assert (H : 0 <= milliVolts_of (fun counts => counts / 200)
                     {| filter_vars := filter_init 200000; previousNotePerfectValue := 12;
                        inputChannel := IN_B; Control_Reg := 0 |} 200100 <= 5020)
    by (vm_compute; split; discriminate).
  split; [exact H|].
  destruct (C9_blue_led_magnitude (fun counts => counts / 200) _ 200100
              {| blue_compare := 833; blue_running := true |} H)
    as (st' & evs & t & Htick & _ & _ & Hon & Hoff).
  exists st', evs. split; [exact Htick|].
  destruct (correction_applied _ t).
  - left. exact (proj1 (Hon eq_refl)).
  - right. exact (proj2 (Hoff eq_refl)).
Defined.

(** * Further properties of the filter *)

(** Whatever holds of every slot and of the new sample holds of every
    slot after the update: the window only ever contains samples. *)
Lemma filter_update_Forall (P : Z -> Prop) f r :
  length (adcCounts f) = 128%nat ->
  Forall P (adcCounts f) -> P r -> Forall P (adcCounts (filter_update f r)).
Proof.
  intros Hlen Hall Hr. unfold filter_update.
  destruct (diff (averageCounts f) r >? SIGNAL_SLOPE); cbn [adcCounts].
  - rewrite fill_replicate by exact Hlen. now apply Forall_replicate.
  - now apply Forall_insert.
Qed.

Lemma buffer_sum_between lo hi a :
  Forall (fun x => lo <= x <= hi) a ->
  lo * Z.of_nat (length a) <= buffer_sum a <= hi * Z.of_nat (length a).
Proof.
  unfold buffer_sum.
  induction 1 as [|x a Hx Ha IH]; [cbn; lia|].
  cbn [foldr length]. lia.
Qed.

Lemma filter_run_between lo hi first samples :
  sample_range lo -> sample_range hi ->
  lo <= first <= hi -> Forall (fun x => lo <= x <= hi) samples ->
  filter_inv (filter_run first samples)
  /\ Forall (fun x => lo <= x <= hi) (adcCounts (filter_run first samples)).
Proof.
  intros Hlo Hhi Hfirst Hsamples. unfold filter_run.
  assert (Hin : forall x, lo <= x <= hi -> sample_range x)
    by (unfold sample_range in *; intros; lia).
  assert (H0 : filter_inv (filter_init first)
               /\ Forall (fun x => lo <= x <= hi) (adcCounts (filter_init first))).
  { split; [apply filter_init_inv; auto|].
    cbn [filter_init adcCounts]. rewrite fill_replicate by apply adcCounts_zero_length.
    now apply Forall_replicate. }
  revert H0. generalize (filter_init first).
  induction Hsamples as [|r samples Hr _ IH]; intros f [Hinv Hall]; [now split|].
  cbn [fold_left]. apply IH. split.
  - apply filter_update_inv; auto.
  - apply filter_update_Forall; auto. apply (inv_length _ Hinv).
Qed.

(** X1.  The filtered value never leaves the range of the samples: when
    the first sample and all later ones lie between [lo] and [hi], so
    does the average after any number of iterations, resets included. *)
Theorem X1_average_between_samples lo hi first samples :
  sample_range lo -> sample_range hi ->
  lo <= first <= hi -> Forall (fun x => lo <= x <= hi) samples ->
  lo <= averageCounts (filter_run first samples) <= hi.
Proof.
  intros Hlo Hhi Hfirst Hsamples.
  destruct (filter_run_between lo hi first samples Hlo Hhi Hfirst Hsamples)
    as [[Hlen _ Hsum Havg _] Hall].
  apply buffer_sum_between in Hall. rewrite Hlen, <- Hsum in Hall.
  rewrite Havg. unfold DIV. rewrite Z.shiftr_div_pow2 by lia.
  change (2 ^ 7) with 128. change (Z.of_nat 128) with 128 in Hall.
  split; [apply Z.div_le_lower_bound | apply Z.div_le_upper_bound]; lia.
Qed.

Lemma X1_average_between_samples_witness :
  100 <= averageCounts (filter_run 150 [100; 40000; 2500; 100; 39000]) <= 40000.
Proof.
  apply X1_average_between_samples.
  - unfold sample_range; lia.
  - unfold sample_range; lia.
  - lia.
  - repeat constructor; lia.
Defined.

(** X2.  The slope test on the narrowed difference.  While the absolute
    difference between average and sample is below 32768 the test is
    the comparison with 1000; from 32768 up to 66536 the [int16] value
    is at most 1000 and the test is false. *)
Theorem X2_slope_test_after_narrowing a r :
  int32_range (a - r) ->
  (Z.abs (a - r) < 2 ^ 15 ->
     (diff a r >? SIGNAL_SLOPE) = (Z.abs (a - r) >? SIGNAL_SLOPE))
  /\ (2 ^ 15 <= Z.abs (a - r) <= 2 ^ 16 + SIGNAL_SLOPE ->
        (diff a r >? SIGNAL_SLOPE) = false).
Proof.
  unfold int32_range, INT32_MIN, INT32_MAX, SIGNAL_SLOPE. intros Hr.
  unfold diff, abs.
  rewrite (to_int32_small (a - r)) by (unfold int32_range, INT32_MIN, INT32_MAX; lia).
  split; intros Hd.
  - rewrite (to_int32_small (Z.abs _)) by (unfold int32_range, INT32_MIN, INT32_MAX; lia).
    rewrite to_int16_small by lia. reflexivity.
  - rewrite (to_int32_small (Z.abs _)) by (unfold int32_range, INT32_MIN, INT32_MAX; lia).
    unfold to_int16, to_signed. change (2 ^ (16 - 1)) with 32768. change (2 ^ 16) with 65536 in *.
    change (2 ^ 15) with 32768 in *.
    destruct (Z.gtb_spec ((Z.abs (a - r) + 32768) mod 65536 - 32768) 1000) as [Hgt|]; [|reflexivity].
    exfalso. revert Hgt. Z.to_euclidean_division_equations. lia.
Qed.

Lemma X2_slope_test_after_narrowing_witness :
  int32_range (0 - 66000) /\ (diff 0 66000 >? SIGNAL_SLOPE) = false.
Proof.
  assert (H : int32_range (0 - 66000)) by (unfold int32_range, INT32_MIN, INT32_MAX; lia).
  split; [exact H|].
  apply (proj2 (X2_slope_test_after_narrowing 0 66000 H)).
  unfold SIGNAL_SLOPE. cbn. lia.
Defined.

(** Sliding updates write the samples into the window one slot after
    the other: [done] are the slots written so far, the rest still hold
    the value [v] the window was filled with. *)
Lemma sliding_window v : forall l done f,
  (length done + length l <= 128)%nat ->
  filter_inv f -> Forall sample_range l ->
  adcCounts f = done ++ replicate (128 - length done) v ->
  index f = Z.of_nat (length done mod 128) ->
  no_reset f l = true ->
  adcCounts (fold_left filter_update l f)
    = done ++ l ++ replicate (128 - length done - length l) v
  /\ filter_inv (fold_left filter_update l f)
  /\ index (fold_left filter_update l f) = Z.of_nat ((length done + length l) mod 128).
Proof.
  induction l as [|r l IH]; intros done f Hlen Hinv Hl Ha Hidx Hno.
  - cbn [fold_left length app]. rewrite Nat.sub_0_r, Nat.add_0_r. auto.
  - cbn [length] in Hlen. cbn [no_reset] in Hno.
    apply andb_true_iff in Hno as [Htest Hno]. apply negb_true_iff in Htest.
    inversion Hl as [|? ? Hr Hl']; subst.
    assert (Hdone : (length done < 128)%nat) by lia.
    rewrite Nat.mod_small in Hidx by lia.
    assert (Hupd : adcCounts (filter_update f r)
                   = (done ++ [r]) ++ replicate (128 - length (done ++ [r])) v
                   /\ index (filter_update f r)
                      = Z.of_nat (length (done ++ [r]) mod 128)).
    { unfold filter_update. rewrite Htest. cbn [adcCounts index].
      rewrite Hidx, Nat2Z.id, Ha, MAX_SAMPLE_value, to_uint8_small by lia.
      rewrite length_app. cbn [length].
      replace (128 - length done)%nat with (S (128 - (length done + 1))) by lia.
      cbn [replicate]. split.
      - replace (length done) with (length done + 0)%nat at 1 by lia.
        rewrite insert_app_r. cbn. now rewrite <- app_assoc.
      - destruct (Z.eqb_spec (Z.of_nat (length done) + 1) 128) as [E|E].
        + replace (length done + 1)%nat with 128%nat by lia. reflexivity.
        + rewrite Nat.mod_small by lia. lia. }
    destruct Hupd as [Ha' Hidx'].
    cbn [fold_left].
    destruct (IH (done ++ [r]) (filter_update f r)) as (Hres & Hinv' & Hi'); auto.
    + rewrite length_app. cbn [length]. lia.
    + now apply filter_update_inv.
    + rewrite length_app in Hres, Hi'. cbn [length] in Hres, Hi'.
      split; [|split; [exact Hinv'|]].
      * rewrite Hres, <- app_assoc. cbn [app length].
        replace (128 - (length done + 1) - length l)%nat
          with (128 - length done - S (length l))%nat by lia. reflexivity.
      * rewrite Hi'. f_equal. f_equal. cbn [length]. lia.
Qed.

(** X3.  A true moving average: 128 samples fed after initialization,
    none of which trips the slope test, fill the window in order; the
    cursor is back at 0, the sum is their sum and the average their sum
    divided by 128, rounded down. *)
Theorem X3_window_holds_last_128_samples first l :
  sample_range first -> Forall sample_range l ->
  length l = 128%nat ->
  no_reset (filter_init first) l = true ->
  adcCounts (filter_run first l) = l
  /\ index (filter_run first l) = 0
  /\ sum (filter_run first l) = buffer_sum l
  /\ averageCounts (filter_run first l) = buffer_sum l / 128.
Proof.
  intros Hfirst Hl Hlen Hno. unfold filter_run.
  assert (H1 : (length (@nil Z) + length l <= 128)%nat) by (cbn [length]; lia).
  assert (H2 : adcCounts (filter_init first)
               = [] ++ replicate (128 - length (@nil Z)) first).
  { cbn [filter_init adcCounts app length]. apply fill_replicate, adcCounts_zero_length. }
  destruct (sliding_window first l [] (filter_init first) H1
              (filter_init_inv first Hfirst) Hl H2 eq_refl Hno) as (Ha & Hinv & Hidx).
  cbn [length app] in Ha, Hidx. rewrite Hlen in Ha, Hidx.
  cbn [Nat.sub replicate Nat.add] in Ha. rewrite app_nil_r in Ha.
  destruct Hinv as [_ _ Hsum Havg _].
  rewrite Havg, Hsum, Ha. repeat split; try assumption; try reflexivity.
  unfold DIV. now rewrite Z.shiftr_div_pow2 by lia.
Qed.

Lemma X3_window_holds_last_128_samples_witness :
  averageCounts (filter_run 0 (map Z.of_nat (seq 0 128)))
  = buffer_sum (map Z.of_nat (seq 0 128)) / 128.
Proof.
  refine (proj2 (proj2 (proj2
            (X3_window_holds_last_128_samples 0 (map Z.of_nat (seq 0 128)) _ _ _ _)))).
  - unfold sample_range; lia.
  - apply List.Forall_forall. intros x Hx. apply List.in_map_iff in Hx as (n & <- & Hn).
    apply List.in_seq in Hn. unfold sample_range. lia.
  - reflexivity.
  - vm_compute. reflexivity.
Defined.

(** * Further properties of the quantizer and the table *)

(** X4.  The quantizer is monotone on non-negative voltages: a higher
    filtered voltage never gives a lower step. *)
Theorem X4_quantizer_monotone a b :
  0 <= a <= b -> b <= INT32_MAX ->
  notePerfectValue a <= notePerfectValue b.
Proof.
  intros Hab Hb.
  rewrite (notePerfectValue_nonneg a), (notePerfectValue_nonneg b) by lia.
  destruct (a mod 83 >=? 41) eqn:Ea; destruct (b mod 83 >=? 41) eqn:Eb;
    Z.to_euclidean_division_equations; lia.
Qed.

Lemma X4_quantizer_monotone_witness :
  notePerfectValue 41 <= notePerfectValue 124.
Proof.
  apply X4_quantizer_monotone; unfold INT32_MAX; lia.
Defined.

(** X5.  Round trip through the table: every table value quantizes to
    its own index, so re-quantizing an output gives the same step; and
    from step 1 on a table value is reported as not corrected. *)
Theorem X5_table_value_quantizes_to_its_index i :
  0 <= i <= 60 ->
  exists t, PWM_Lookup_at i = Some t
            /\ notePerfectValue t = i
            /\ (1 <= i -> correction_active t = Some false).
Proof.
  intros Hi.
  destruct (PWM_Lookup_at_in_range i Hi) as (t & Ht & _ & Hb).
  assert (Hstep : notePerfectValue t = i).
  { rewrite notePerfectValue_nonneg by (unfold INT32_MAX; lia).
    destruct (t mod 83 >=? 41) eqn:E; Z.to_euclidean_division_equations; lia. }
  exists t. split; [exact Ht|]. split; [exact Hstep|].
  intros Hpos.
  destruct (correction_active_window t) as (t' & Ht' & Hactive); [lia|].
  rewrite Hstep, Ht in Ht'. injection Ht' as <-.
  rewrite Hactive. f_equal.
  destruct (Z.leb_spec (t - 20) t), (Z.leb_spec t (t + 20)); cbn; try reflexivity; lia.
Qed.

Lemma X5_table_value_quantizes_to_its_index_witness :
  exists t, PWM_Lookup_at 60 = Some t /\ notePerfectValue t = 60.
Proof.
  destruct (X5_table_value_quantizes_to_its_index 60 ltac:(lia)) as (t & Ht & Hs & _).
  exists t. split; [exact Ht | exact Hs].
Defined.

(** X6.  How far the output is from the input: for a voltage inside the
    table's range the step times 83 is within 42 mV of it, and the
    table value the PWM receives is at most 40 mV below and at most
    62 mV above it. *)
Theorem X6_output_within_62mV_of_input mv :
  0 <= mv <= 5020 ->
  exists t, PWM_Lookup_at (notePerfectValue mv) = Some t
            /\ -42 <= mv - NOTEPERFECT_STEP_SIZE_MV * notePerfectValue mv <= 40
            /\ -40 <= t - mv <= 62.
Proof.
  intros Hmv. rewrite step_size_value.
  destruct (PWM_Lookup_at_in_range (notePerfectValue mv)) as (t & Ht & _ & Hb);
    [now apply notePerfectValue_in_table|].
  exists t. split; [exact Ht|].
  rewrite notePerfectValue_nonneg in * by (unfold INT32_MAX; lia).
  destruct (mv mod 83 >=? 41) eqn:E; Z.to_euclidean_division_equations; lia.
Qed.

Lemma X6_output_within_62mV_of_input_witness :
  exists t, PWM_Lookup_at (notePerfectValue 4938) = Some t /\ -40 <= t - 4938 <= 62.
Proof.
  destruct (X6_output_within_62mV_of_input 4938 ltac:(lia)) as (t & Ht & _ & Hb).
  exists t. split; [exact Ht | exact Hb].
Defined.

(** No table value up to step 10 exceeds the one of step 10. *)
Lemma PWM_Lookup_at_most_step_10 i t :
  0 <= i <= 10 -> PWM_Lookup_at i = Some t -> 0 <= t <= 833.
Proof.
  intros Hi Ht.
  destruct (PWM_Lookup_at_in_range i ltac:(lia)) as (t' & Ht' & _ & Hb).
  rewrite Ht in Ht'. injection Ht' as <-.
  split; [lia|].
  destruct (Z.eq_dec i 10) as [->|Hne]; [injection Ht as <-; lia|].
  apply PWM_Lookup_at_Some in Ht as [_ Ht].
  pose proof (strictly_increasing_lookup PWM_Lookup eq_refl
                (Z.to_nat i) 10%nat t 833 Ht eq_refl ltac:(lia)). lia.
Qed.

(** * Further properties of the outputs *)

(** X7.  "don't let indicator LED go all the way off": on a step change
    inside the table the channel LED receives one compare value, the
    table value of the step or, at step 0, that of step 1; it is never
    below 83. *)
Theorem X7_channel_led_never_off ch npv :
  0 <= npv <= 60 -> ch = IN_A \/ ch = IN_B ->
  exists v, 83 <= v <= 5000
    /\ led_housekeeping ch npv
       = Some [if ch =? IN_A then PWM_Red_WriteCompare v else PWM_Green_WriteCompare v]
    /\ PWM_Lookup_at (Z.max npv 1) = Some v.
Proof.
  intros Hnpv Hch.
  destruct (PWM_Lookup_at_in_range npv Hnpv) as (t & Ht & _ & Hb).
  rewrite (led_housekeeping_in_table ch npv t Ht).
  destruct (Z.eqb_spec 0 npv) as [<-|Hne].
  - exists 83. split; [lia|]. split; [|reflexivity].
    destruct Hch as [-> | ->]; reflexivity.
  - exists t. split; [lia|]. rewrite Z.max_l by lia. split; [|exact Ht].
    destruct Hch as [-> | ->]; reflexivity.
Qed.

Lemma X7_channel_led_never_off_witness :
  exists v, 83 <= v <= 5000 /\ led_housekeeping IN_B 0 = Some [PWM_Green_WriteCompare v].
Proof.
  destruct (X7_channel_led_never_off IN_B 0 ltac:(lia) (or_intror eq_refl))
    as (v & Hv & Hled & _).
  exists v. split; [exact Hv | exact Hled].
Defined.

(** X8.  "limit Blue LED brightness to step 10 value": whatever the
    step inside the table and whatever the voltage, a compare value
    written to the blue PWM is at most 833, the table value of step 10. *)
Theorem X8_blue_led_capped reg mv npv :
  0 <= npv <= 60 ->
  exists evs reg', blue_led reg mv npv = Some (evs, reg')
    /\ forall v, In (PWM_Blue_WriteCompare v) evs -> 0 <= v <= 833.
Proof.
  intros Hnpv.
  destruct (PWM_Lookup_at_in_range npv Hnpv) as (t & Ht & _).
  destruct (blue_led_in_table reg mv npv t Ht) as (v & Hv & Hblue).
  rewrite Hblue. apply PWM_Lookup_at_most_step_10 in Hv; [|lia].
  destruct (correction_applied mv t); do 2 eexists; (split; [reflexivity|]);
    intros w Hw; cbn in Hw.
  - destruct Hw as [[= <-]|[Hw|[]]]; [lia | discriminate Hw].
  - destruct Hw as [Hw|[Hw|[Hw|[]]]]; discriminate Hw.
Qed.

Lemma X8_blue_led_capped_witness :
  exists evs reg', blue_led 0 4950 60 = Some (evs, reg')
    /\ forall v, In (PWM_Blue_WriteCompare v) evs -> 0 <= v <= 833.
Proof. exact (X8_blue_led_capped 0 4950 60 ltac:(lia)). Defined.

(** * Properties of the control register *)

Lemma reset_pulse_checked :
  forallb (fun n => forallb (reset_pulse_check (Z.of_nat n)) [BLUE_CTRL; RED_CTRL; GREEN_CTRL])
          (seq 0 256) = true.
Proof. vm_compute. reflexivity. Qed.

(** One reset pulse on an 8-bit register value: the bit is set, then
    cleared; no other bit changes. *)
Lemma reset_pulse_spec reg mask :
  0 <= reg < 256 -> mask = BLUE_CTRL \/ mask = RED_CTRL \/ mask = GREEN_CTRL ->
  (reset_pulse reg mask).1 = Z.lor reg mask
  /\ (reset_pulse reg mask).2 = Z.land reg (Z.lnot mask)
  /\ 0 <= (reset_pulse reg mask).2 <= reg
  /\ Z.land (reset_pulse reg mask).2 mask = 0
  /\ Z.land (reset_pulse reg mask).2 (Z.lnot mask) = Z.land reg (Z.lnot mask)
  /\ (Z.land reg mask = 0 -> (reset_pulse reg mask).2 = reg).
Proof.
  intros Hreg Hmask.
  pose proof reset_pulse_checked as Hall.
  rewrite List.forallb_forall in Hall.
  specialize (Hall (Z.to_nat reg)). rewrite Z2Nat.id in Hall by lia.
  assert (Hin : In (Z.to_nat reg) (seq 0 256)) by (apply List.in_seq; lia).
  specialize (Hall Hin). rewrite List.forallb_forall in Hall.
  assert (Hm : In mask [BLUE_CTRL; RED_CTRL; GREEN_CTRL])
    by (cbn; destruct Hmask as [->|[->| ->]]; auto).
  specialize (Hall mask Hm). unfold reset_pulse_check in Hall. cbv zeta in Hall.
  repeat (apply andb_true_iff in Hall as [Hall ?]).
  repeat split; lia.
Qed.

Lemma clear_bits_checked :
  forallb (fun n => forallb (clear_bits_check (Z.of_nat n)) [0; 1; 2; 3; 4; 5; 6; 7])
          (seq 0 256) = true.
Proof. vm_compute. reflexivity. Qed.

Lemma clear_bits_spec reg k :
  0 <= reg < 256 -> 0 <= k <= 7 ->
  0 <= Z.land reg (Z.lnot k) <= reg
  /\ Z.land (Z.land reg (Z.lnot k)) (Z.lnot 7) = Z.land reg (Z.lnot 7)
  /\ (Z.land reg 7 = 0 -> Z.land reg (Z.lnot k) = reg).
Proof.
  intros Hreg Hk.
  pose proof clear_bits_checked as Hall.
  rewrite List.forallb_forall in Hall.
  specialize (Hall (Z.to_nat reg)). rewrite Z2Nat.id in Hall by lia.
  assert (Hin : In (Z.to_nat reg) (seq 0 256)) by (apply List.in_seq; lia).
  specialize (Hall Hin). rewrite List.forallb_forall in Hall.
  assert (Hm : In k [0; 1; 2; 3; 4; 5; 6; 7]) by (cbn; lia).
  specialize (Hall k Hm). unfold clear_bits_check in Hall. cbv zeta in Hall.
  repeat (apply andb_true_iff in Hall as [Hall ?]).
  repeat split; lia.
Qed.

(** * Properties of the CapSense block *)

(** The block never touches the filter or the remembered step. *)
Lemma CapSense_block_frame scan ls :
  filter_vars (vars (CapSense_block scan ls).1) = filter_vars (vars ls)
  /\ previousNotePerfectValue (vars (CapSense_block scan ls).1)
     = previousNotePerfectValue (vars ls).
Proof.
  unfold CapSense_block.
  destruct scan as [[] [] [] b2]; cbn [CapSense_IsBusy BUTTON0 BUTTON1 BUTTON2 negb];
    destruct (previousButton0 ls =? OFF), (previousButton1 ls =? OFF);
    split; reflexivity.
Qed.

(** A button memory is [OFF] after a scan exactly when the button was
    not touched in it. *)
Lemma CapSense_block_memory scan ls :
  CapSense_IsBusy scan = false ->
  (previousButton0 (CapSense_block scan ls).1 = OFF <-> BUTTON0 scan = false)
  /\ (previousButton1 (CapSense_block scan ls).1 = OFF <-> BUTTON1 scan = false).
Proof.
  intros Hbusy. unfold CapSense_block. rewrite Hbusy. cbn [negb].
  destruct (BUTTON0 scan), (BUTTON1 scan);
    destruct (Z.eqb_spec (previousButton0 ls) OFF), (Z.eqb_spec (previousButton1 ls) OFF);
    cbn [previousButton0 previousButton1 fst];
    unfold ON, OFF in *; repeat split; intros; try reflexivity; try congruence; try lia.
Qed.

(** The mux is switched on the rising edge of a button only. *)
Lemma CapSense_block_selects scan ls :
  CapSense_IsBusy scan = false ->
  (In (myMux_FastSelect IN_A) (CapSense_block scan ls).2
     <-> BUTTON0 scan = true /\ previousButton0 ls = OFF)
  /\ (In (myMux_FastSelect IN_B) (CapSense_block scan ls).2
        <-> BUTTON1 scan = true /\ previousButton1 ls = OFF).
Proof.
  intros Hbusy. unfold CapSense_block. rewrite Hbusy. cbn [negb].
  destruct (BUTTON0 scan), (BUTTON1 scan), (BUTTON2 scan);
    destruct (Z.eqb_spec (previousButton0 ls) OFF), (Z.eqb_spec (previousButton1 ls) OFF);
    cbn; unfold IN_A, IN_B;
    repeat split; intros; try tauto; try discriminate;
    repeat match goal with
           | H : _ /\ _ |- _ => destruct H
           | H : _ \/ _ |- _ => destruct H
           | H : False |- _ => destruct H
           | H : @eq call _ _ |- _ => discriminate H
           | H : @eq bool _ _ |- _ => discriminate H
           end; try congruence; auto.
Qed.

(** X9.  Edge detection across two scans: with CapSense idle in both,
    the second scan switches the mux to In_A exactly when button 0 is
    touched in it and was not touched in the first; likewise button 1
    and In_B.  Holding a button does not select again. *)
Theorem X9_select_on_rising_edge_only scan1 scan2 ls :
  CapSense_IsBusy scan1 = false -> CapSense_IsBusy scan2 = false ->
  (In (myMux_FastSelect IN_A) (CapSense_block scan2 (CapSense_block scan1 ls).1).2
     <-> BUTTON0 scan2 = true /\ BUTTON0 scan1 = false)
  /\ (In (myMux_FastSelect IN_B) (CapSense_block scan2 (CapSense_block scan1 ls).1).2
        <-> BUTTON1 scan2 = true /\ BUTTON1 scan1 = false).
Proof.
  intros Hbusy1 Hbusy2.
  destruct (CapSense_block_selects scan2 (CapSense_block scan1 ls).1 Hbusy2) as [HA HB].
  destruct (CapSense_block_memory scan1 ls Hbusy1) as [H0 H1].
  rewrite HA, HB, H0, H1. tauto.
Qed.

Lemma X9_select_on_rising_edge_only_witness :
  ~ In (myMux_FastSelect IN_A)
       (CapSense_block (mk_scan false true false false)
          (CapSense_block (mk_scan false true false false) (main_init 0 0)).1).2.
Proof.
  intros Hin.
  apply (proj1 (X9_select_on_rising_edge_only
                  (mk_scan false true false false) (mk_scan false true false false)
                  (main_init 0 0) eq_refl eq_refl)) in Hin.
  destruct Hin as [_ Hin]. discriminate Hin.
Defined.

(** The LED PWMs follow the selection, whatever the buttons do in one
    scan: both at once, held, released. *)
Lemma CapSense_block_leds scan ls l :
  leds_match_channel l (inputChannel (vars ls)) ->
  leds_match_channel (fold_left leds_of_call (CapSense_block scan ls).2 l)
                     (inputChannel (vars (CapSense_block scan ls).1)).
Proof.
  intros Hl. unfold CapSense_block.
  destruct (CapSense_IsBusy scan); cbn [negb]; [exact Hl|].
  destruct (BUTTON0 scan), (BUTTON1 scan), (BUTTON2 scan);
    destruct (previousButton0 ls =? OFF), (previousButton1 ls =? OFF);
    cbn; try exact Hl; split; reflexivity.
Qed.

Lemma leds_of_signal_path evs l :
  fold_left leds_of_call (map signal_path evs) l = l.
Proof. induction evs as [|e evs IH]; [reflexivity | exact IH]. Qed.

(** * Properties of the whole loop *)

Section LoopFacts.

Variable ADC_CountsTo_mVolts : Z -> Z.

Local Abbreviation mV st result := (milliVolts_of ADC_CountsTo_mVolts st result).

(** An iteration that completes read the table inside its bounds. *)
Lemma tick_Some_in_table st result r :
  tick ADC_CountsTo_mVolts st result = Some r ->
  exists t, PWM_Lookup_at (notePerfectValue (mV st result)) = Some t.
Proof.
  intros H. destruct (PWM_Lookup_at (notePerfectValue (mV st result))) as [t|] eqn:E; [eauto|].
  exfalso. unfold tick, blue_led in H. cbv zeta in H.
  fold (mV st result) in H. rewrite E in H.
  destruct (negb _) in H; [|discriminate H].
  unfold step_changed in H. rewrite E in H. discriminate H.
Qed.

Lemma tick_Some_inv st result st' evs :
  tick ADC_CountsTo_mVolts st result = Some (st', evs) ->
  exists t led v,
    PWM_Lookup_at (notePerfectValue (mV st result)) = Some t
    /\ led_housekeeping (inputChannel st) (notePerfectValue (mV st result)) = Some led
    /\ PWM_Lookup_at (Z.min (notePerfectValue (mV st result)) 10) = Some v
    /\ st' = {| filter_vars := filter_update (filter_vars st) result;
                previousNotePerfectValue := notePerfectValue (mV st result);
                inputChannel := inputChannel st;
                Control_Reg :=
                  if correction_applied (mV st result) t
                  then Control_Reg st
                  else (reset_pulse (Control_Reg st) BLUE_CTRL).2 |}
    /\ evs = (if notePerfectValue (mV st result) =? previousNotePerfectValue st
              then []
              else [PWM_WriteCompare t] ++ led
                   ++ [LCD_Position 1 12; LCD_PrintString (fmt_4d t);
                       LCD_Position 0 14;
                       LCD_PrintString (fmt_2ld (notePerfectValue (mV st result)))])
             ++ telemetry (mV st result)
             ++ (if correction_applied (mV st result) t
                 then [PWM_Blue_WriteCompare v; PWM_Blue_Start]
                 else [Control_Reg_Write (reset_pulse (Control_Reg st) BLUE_CTRL).1;
                       PWM_Blue_Stop;
                       Control_Reg_Write (reset_pulse (Control_Reg st) BLUE_CTRL).2]).
Proof.
  intros H. destruct (tick_Some_in_table st result _ H) as [t Ht].
  destruct (tick_in_table ADC_CountsTo_mVolts st result t Ht) as (led & v & Hled & Hv & Htick).
  rewrite Htick in H. injection H as <- <-.
  exists t, led, v. repeat split; assumption || reflexivity.
Qed.

Lemma loop_iteration_Some ls scan result ls' calls :
  loop_iteration ADC_CountsTo_mVolts ls scan result = Some (ls', calls) ->
  exists st' evs,
    tick ADC_CountsTo_mVolts (vars (CapSense_block scan ls).1) result = Some (st', evs)
    /\ ls' = {| vars := st';
                previousButton0 := previousButton0 (CapSense_block scan ls).1;
                previousButton1 := previousButton1 (CapSense_block scan ls).1 |}
    /\ calls = (CapSense_block scan ls).2 ++ map signal_path evs.
Proof.
  unfold loop_iteration. cbv zeta.
  destruct (tick _ _ _) as [[st' evs]|]; [|discriminate].
  cbn. intros [= <- <-]. eauto.
Qed.

Lemma main_loop_cons ls scan result rest ls' calls :
  main_loop ADC_CountsTo_mVolts ls ((scan, result) :: rest) = Some (ls', calls) ->
  exists ls1 c1 c2,
    loop_iteration ADC_CountsTo_mVolts ls scan result = Some (ls1, c1)
    /\ main_loop ADC_CountsTo_mVolts ls1 rest = Some (ls', c2)
    /\ calls = c1 ++ c2.
Proof.
  cbn [main_loop].
  destruct (loop_iteration _ _ _ _) as [[ls1 c1]|]; [|discriminate]. cbn.
  destruct (main_loop _ ls1 rest) as [[ls2 c2]|] eqn:Erest; [|discriminate]. cbn.
  intros [= <- <-]. exists ls1, c1, c2.
  split; [reflexivity|]. split; [exact Erest | reflexivity].
Qed.

(** The CapSense block leaves the millivolts of the iteration alone. *)
Lemma mV_after_CapSense_block scan ls result :
  mV (vars (CapSense_block scan ls).1) result = mV (vars ls) result.
Proof.
  unfold milliVolts_of. now rewrite (proj1 (CapSense_block_frame scan ls)).
Qed.

End LoopFacts.

(** The CapSense block clears at most the green and the red reset bit
    of the control register. *)
Lemma CapSense_block_reg scan ls :
  0 <= Control_Reg (vars ls) < 256 ->
  exists k, (k = 0 \/ k = 2 \/ k = 4 \/ k = 6)
    /\ Control_Reg (vars (CapSense_block scan ls).1)
       = Z.land (Control_Reg (vars ls)) (Z.lnot k).
Proof.
  intros Hreg.
  destruct (reset_pulse_spec (Control_Reg (vars ls)) GREEN_CTRL Hreg ltac:(auto))
    as (_ & HG & HGr & _).
  destruct (reset_pulse_spec (Control_Reg (vars ls)) RED_CTRL Hreg ltac:(auto))
    as (_ & HR & _).
  destruct (reset_pulse_spec (reset_pulse (Control_Reg (vars ls)) GREEN_CTRL).2 RED_CTRL
              ltac:(lia) ltac:(auto)) as (_ & HGR & _).
  rewrite HG in HGR at 2. rewrite <- Z.land_assoc in HGR.
  change (Z.land (Z.lnot GREEN_CTRL) (Z.lnot RED_CTRL)) with (Z.lnot 6) in HGR.
  unfold CapSense_block.
  destruct (CapSense_IsBusy scan); cbn [negb fst].
  { exists 0. split; [auto|]. now rewrite Z.land_m1_r. }
  destruct (BUTTON0 scan), (BUTTON1 scan);
    destruct (previousButton0 ls =? OFF), (previousButton1 ls =? OFF);
    cbn [vars Control_Reg select_IN_A select_IN_B fst snd];
    first [ exists 6; split; [auto|]; exact HGR
          | exists 4; split; [auto|]; exact HG
          | exists 2; split; [auto|]; exact HR
          | exists 0; split; [auto|]; now rewrite Z.land_m1_r ].
Qed.

Lemma CapSense_block_channel scan ls :
  inputChannel (vars ls) = IN_A \/ inputChannel (vars ls) = IN_B ->
  inputChannel (vars (CapSense_block scan ls).1) = IN_A
  \/ inputChannel (vars (CapSense_block scan ls).1) = IN_B.
Proof.
  intros Hch. unfold CapSense_block.
  destruct (CapSense_IsBusy scan); cbn [negb fst]; [exact Hch|].
  destruct (BUTTON0 scan), (BUTTON1 scan);
    destruct (previousButton0 ls =? OFF), (previousButton1 ls =? OFF);
    cbn [vars inputChannel]; auto.
Qed.

Lemma CapSense_block_buttons scan ls :
  (previousButton0 ls = OFF \/ previousButton0 ls = ON) ->
  (previousButton1 ls = OFF \/ previousButton1 ls = ON) ->
  (previousButton0 (CapSense_block scan ls).1 = OFF
   \/ previousButton0 (CapSense_block scan ls).1 = ON)
  /\ (previousButton1 (CapSense_block scan ls).1 = OFF
      \/ previousButton1 (CapSense_block scan ls).1 = ON).
Proof.
  intros H0 H1. unfold CapSense_block.
  destruct (CapSense_IsBusy scan); cbn [negb fst]; [auto|].
  destruct (BUTTON0 scan), (BUTTON1 scan);
    destruct (previousButton0 ls =? OFF), (previousButton1 ls =? OFF);
    cbn [previousButton0 previousButton1]; auto.
Qed.

Lemma blue_of_signal_path evs b :
  fold_left blue_of_call (map signal_path evs) b = fold_left blue_call evs b.
Proof.
  revert b. induction evs as [|e evs IH]; intros b; [reflexivity|]. cbn. apply IH.
Qed.

Section LoopTheorems.

Variable ADC_CountsTo_mVolts : Z -> Z.

Local Abbreviation mV st result := (milliVolts_of ADC_CountsTo_mVolts st result).

(** X10.  The LED of the selected channel runs and the other one does
    not: if that holds when the loop starts (startup runs the red PWM
    and selects In_A), it holds after any number of iterations,
    whatever the buttons did. *)
Theorem X10_led_of_selected_channel_runs inputs : forall ls l ls' calls,
  leds_match_channel l (inputChannel (vars ls)) ->
  main_loop ADC_CountsTo_mVolts ls inputs = Some (ls', calls) ->
  leds_match_channel (fold_left leds_of_call calls l) (inputChannel (vars ls')).
Proof.
  induction inputs as [|[scan result] rest IH]; intros ls l ls' calls Hl Hrun.
  - cbn in Hrun. injection Hrun as <- <-. exact Hl.
  - apply main_loop_cons in Hrun as (ls1 & c1 & c2 & Hit & Hrest & ->).
    apply loop_iteration_Some in Hit as (st' & evs & Htick & -> & ->).
    apply tick_Some_inv in Htick as (t & led & v & _ & _ & _ & -> & _).
    rewrite fold_left_app. refine (IH _ _ _ _ _ Hrest).
    rewrite fold_left_app, leds_of_signal_path. cbn [vars inputChannel].
    now apply CapSense_block_leds.
Qed.

(** Over one iteration the control register loses some of its three
    reset bits at most. *)
Lemma control_register_cleared_bits ls scan result ls' calls :
  0 <= Control_Reg (vars ls) < 256 ->
  loop_iteration ADC_CountsTo_mVolts ls scan result = Some (ls', calls) ->
  exists k, 0 <= k <= 7
    /\ Control_Reg (vars ls') = Z.land (Control_Reg (vars ls)) (Z.lnot k).
Proof.
  intros Hreg Hit.
  apply loop_iteration_Some in Hit as (st' & evs & Htick & -> & _).
  apply tick_Some_inv in Htick as (t & led & v & _ & _ & _ & -> & _).
  cbn [vars Control_Reg].
  destruct (CapSense_block_reg scan ls Hreg) as (k & Hk & Hui).
  assert (Hk7 : 0 <= k <= 7) by lia.
  destruct (clear_bits_spec _ k Hreg Hk7) as (Hle & _).
  destruct (correction_applied _ t); [exists k; split; [lia | exact Hui]|].
  destruct (reset_pulse_spec (Control_Reg (vars (CapSense_block scan ls).1)) BLUE_CTRL)
    as (_ & HB & _); [rewrite Hui; lia | auto |].
  rewrite HB, Hui, <- Z.land_assoc.
  exists (k + 1). split; [lia|]. f_equal.
  destruct Hk as [->|[->|[->| ->]]]; reflexivity.
Qed.

(** X11.  The control register over one iteration: the loop only
    pulses the three PWM reset bits.  No bit is ever set at the end
    that was clear before, bits 3 to 7 keep their value, and a register
    with the three reset bits clear is left exactly as it was. *)
Theorem X11_control_register_only_pulsed ls scan result ls' calls :
  0 <= Control_Reg (vars ls) < 256 ->
  loop_iteration ADC_CountsTo_mVolts ls scan result = Some (ls', calls) ->
  (exists k, 0 <= k <= 7
     /\ Control_Reg (vars ls') = Z.land (Control_Reg (vars ls)) (Z.lnot k))
  /\ 0 <= Control_Reg (vars ls') <= Control_Reg (vars ls)
  /\ Z.land (Control_Reg (vars ls')) (Z.lnot 7) = Z.land (Control_Reg (vars ls)) (Z.lnot 7)
  /\ (Z.land (Control_Reg (vars ls)) 7 = 0 -> Control_Reg (vars ls') = Control_Reg (vars ls)).
Proof.
  intros Hreg Hit.
  destruct (control_register_cleared_bits ls scan result ls' calls Hreg Hit)
    as (k & Hk & Heq).
  destruct (clear_bits_spec _ k Hreg Hk) as (Hle & Hhigh & Hclear).
  rewrite Heq. split; [exists k; split; [exact Hk | reflexivity]|].
  split; [exact Hle|]. split; [exact Hhigh | exact Hclear].
Qed.

(** X12.  Two iterations in a row with the same step: if an iteration
    completes and the next sample quantizes to the same step, the next
    iteration completes too and makes none of the calls that carry the
    quantized output; it still prints the millivolts. *)
Theorem X12_same_step_twice_is_silent st r1 st1 ev1 r2 :
  tick ADC_CountsTo_mVolts st r1 = Some (st1, ev1) ->
  notePerfectValue (mV st1 r2) = notePerfectValue (mV st r1) ->
  exists st2 ev2,
    tick ADC_CountsTo_mVolts st1 r2 = Some (st2, ev2)
    /\ existsb primary_output ev2 = false
    /\ In (LCD_PrintString (fmt_4ld (mV st1 r2))) ev2.
Proof.
  intros H1 Hsame.
  apply tick_Some_inv in H1 as (t & _ & _ & Ht & _ & _ & Hst1 & _).
  assert (Hprev : previousNotePerfectValue st1 = notePerfectValue (mV st r1))
    by (rewrite Hst1; reflexivity).
  rewrite <- Hsame in Ht, Hprev.
  destruct (tick_in_table ADC_CountsTo_mVolts st1 r2 t Ht) as (led & v & _ & _ & Htick).
  rewrite Htick, Hprev, Z.eqb_refl. cbn [app].
  destruct (correction_applied (mV st1 r2) t);
    do 2 eexists; (split; [reflexivity|]); (split; [reflexivity | cbn; auto]).
Qed.

End LoopTheorems.

Lemma X10_led_of_selected_channel_runs_witness :
  exists ls' calls,
    main_loop (fun counts => counts / 200) (main_init 0 20000)
      [(mk_scan false false true false, 20010); (mk_scan false true true false, 20020)]
    = Some (ls', calls)
    /\ leds_match_channel
         (fold_left leds_of_call calls {| red_running := true; green_running := false |})
         (inputChannel (vars ls')).
Proof.
  destruct (main_loop (fun counts => counts / 200) (main_init 0 20000)
              [(mk_scan false false true false, 20010); (mk_scan false true true false, 20020)])
    as [[ls' calls]|] eqn:Hrun; [|vm_compute in Hrun; discriminate Hrun].
  exists ls', calls. split; [reflexivity|].
  exact (X10_led_of_selected_channel_runs (fun counts => counts / 200) _
           (main_init 0 20000) {| red_running := true; green_running := false |}
           ls' calls (conj eq_refl eq_refl) Hrun).
Defined.

Lemma X11_control_register_only_pulsed_witness :
  exists ls' calls,
    loop_iteration (fun counts => counts / 200) (main_init 0xA7 20000)
      (mk_scan false true true false) 20010 = Some (ls', calls)
    /\ Z.land (Control_Reg (vars ls')) (Z.lnot 7) = Z.land 0xA7 (Z.lnot 7).
Proof.
  destruct (loop_iteration (fun counts => counts / 200) (main_init 0xA7 20000)
              (mk_scan false true true false) 20010)
    as [[ls' calls]|] eqn:Hit; [|vm_compute in Hit; discriminate Hit].
  exists ls', calls. split; [reflexivity|].
  assert (Hreg : 0 <= Control_Reg (vars (main_init 0xA7 20000)) < 256) by (cbn; lia).
  exact (proj1 (proj2 (proj2
           (X11_control_register_only_pulsed (fun counts => counts / 200) _ _ _ _ _
              Hreg Hit)))).
Defined.

Lemma X12_same_step_twice_is_silent_witness :
  exists st1 ev1 st2 ev2,
    tick (fun counts => counts / 200) (vars (main_init 0 20000)) 20010 = Some (st1, ev1)
    /\ tick (fun counts => counts / 200) st1 20020 = Some (st2, ev2)
    /\ existsb primary_output ev2 = false.
Proof.
  destruct (tick (fun counts => counts / 200) (vars (main_init 0 20000)) 20010)
    as [[st1 ev1]|] eqn:H1; [|vm_compute in H1; discriminate H1].
  assert (Hsame : notePerfectValue (milliVolts_of (fun counts => counts / 200) st1 20020)
                  = notePerfectValue (milliVolts_of (fun counts => counts / 200)
                                        (vars (main_init 0 20000)) 20010)).
  { vm_compute in H1. injection H1 as <- _. vm_compute. reflexivity. }
  destruct (X12_same_step_twice_is_silent (fun counts => counts / 200) _ _ _ _ _ H1 Hsame)
    as (st2 & ev2 & H2 & Hsilent & _).
  exists st1, ev1, st2, ev2. split; [reflexivity|]. split; [exact H2 | exact Hsilent].
Defined.

Section LoopInvariants.

Variable ADC_CountsTo_mVolts : Z -> Z.

Local Abbreviation mV st result := (milliVolts_of ADC_CountsTo_mVolts st result).

Lemma loop_iteration_inv reg ls scan result ls' calls :
  0 <= reg < 256 -> Z.land reg 7 = 0 -> sample_range result ->
  loop_inv reg ls ->
  loop_iteration ADC_CountsTo_mVolts ls scan result = Some (ls', calls) ->
  loop_inv reg ls'.
Proof.
  intros Hreg Hclear Hr [Hf Hch Hstep Hrg Hb0 Hb1] Hit.
  assert (Hreg' : 0 <= Control_Reg (vars ls) < 256) by (rewrite Hrg; exact Hreg).
  destruct (control_register_cleared_bits ADC_CountsTo_mVolts ls scan result ls' calls
              Hreg' Hit) as (k & Hk & Hk').
  destruct (clear_bits_spec _ k Hreg' Hk) as (_ & _ & Hsame). rewrite <- Hk' in Hsame.
  apply loop_iteration_Some in Hit as (st' & evs & Htick & -> & _).
  apply tick_Some_inv in Htick as (t & led & v & Ht & _ & _ & Hst' & _).
  destruct (CapSense_block_frame scan ls) as [Hframe _].
  destruct (CapSense_block_buttons scan ls Hb0 Hb1) as [Hb0' Hb1'].
  apply PWM_Lookup_at_Some in Ht as [Ht _].
  constructor; cbn [vars previousButton0 previousButton1]; try assumption.
  - rewrite Hst'. cbn [filter_vars]. rewrite Hframe. now apply filter_update_inv.
  - rewrite Hst'. cbn [inputChannel]. now apply CapSense_block_channel.
  - rewrite Hst'. cbn [previousNotePerfectValue]. exact Ht.
  - cbn [vars] in Hsame. rewrite Hsame, Hrg; [reflexivity | rewrite Hrg; exact Hclear].
Qed.

End LoopInvariants.

Section LoopRun.

Variable ADC_CountsTo_mVolts : Z -> Z.

Local Abbreviation mV st result := (milliVolts_of ADC_CountsTo_mVolts st result).

Lemma main_loop_inv reg inputs : forall ls ls' calls,
  0 <= reg < 256 -> Z.land reg 7 = 0 ->
  Forall (fun input => sample_range input.2) inputs ->
  loop_inv reg ls ->
  main_loop ADC_CountsTo_mVolts ls inputs = Some (ls', calls) ->
  loop_inv reg ls'.
Proof.
  induction inputs as [|[scan result] rest IH]; intros ls ls' calls Hreg Hclear Hin Hinv Hrun.
  - cbn in Hrun. injection Hrun as <- _. exact Hinv.
  - apply main_loop_cons in Hrun as (ls1 & c1 & c2 & Hit & Hrest & _).
    inversion Hin as [|? ? Hr Hin']; subst.
    apply (IH ls1 ls' c2 Hreg Hclear Hin'); [|exact Hrest].
    exact (loop_iteration_inv ADC_CountsTo_mVolts reg ls scan result ls1 c1
             Hreg Hclear Hr Hinv Hit).
Qed.

(** An iteration whose filtered millivolts are within the table's range
    completes. *)
Lemma loop_iteration_in_table ls scan result :
  0 <= mV (vars ls) result <= 5020 ->
  exists ls' calls,
    loop_iteration ADC_CountsTo_mVolts ls scan result = Some (ls', calls)
    /\ filter_vars (vars ls') = filter_update (filter_vars (vars ls)) result.
Proof.
  intros Hmv. rewrite <- (mV_after_CapSense_block ADC_CountsTo_mVolts scan ls result) in Hmv.
  destruct (PWM_Lookup_at_in_range
              (notePerfectValue (mV (vars (CapSense_block scan ls).1) result)))
    as (t & Ht & _); [now apply notePerfectValue_in_table|].
  destruct (tick_in_table ADC_CountsTo_mVolts _ result t Ht) as (led & v & _ & _ & Htick).
  unfold loop_iteration. cbv zeta. rewrite Htick. cbn [mbind option_bind fst snd].
  do 2 eexists. split; [reflexivity|]. cbn [vars filter_vars].
  now rewrite (proj1 (CapSense_block_frame scan ls)).
Qed.

Lemma main_loop_in_table reg inputs : forall ls,
  0 <= reg < 256 -> Z.land reg 7 = 0 ->
  Forall (fun input => sample_range input.2) inputs ->
  millivolts_in_table ADC_CountsTo_mVolts (filter_vars (vars ls)) (map snd inputs) ->
  loop_inv reg ls ->
  exists ls' calls,
    main_loop ADC_CountsTo_mVolts ls inputs = Some (ls', calls)
    /\ filter_vars (vars ls') = fold_left filter_update (map snd inputs) (filter_vars (vars ls))
    /\ loop_inv reg ls'.
Proof.
  induction inputs as [|[scan result] rest IH]; intros ls Hreg Hclear Hin Hmv Hinv.
  - exists ls, []. split; [reflexivity|]. split; [reflexivity | exact Hinv].
  - cbn [map snd millivolts_in_table] in Hmv. destruct Hmv as [Hmv Hrest].
    inversion Hin as [|? ? Hr Hin']; subst. cbn [snd] in Hr.
    destruct (loop_iteration_in_table ls scan result Hmv) as (ls1 & c1 & Hit & Hf1).
    pose proof (loop_iteration_inv ADC_CountsTo_mVolts reg ls scan result ls1 c1
                  Hreg Hclear Hr Hinv Hit) as Hinv1.
    rewrite <- Hf1 in Hrest.
    destruct (IH ls1 Hreg Hclear Hin' Hrest Hinv1) as (ls' & c2 & Hrun & Hf & Hinv').
    exists ls', (c1 ++ c2). cbn [main_loop map snd fold_left].
    rewrite Hit. cbn [mbind option_bind fst snd]. rewrite Hrun. cbn [mbind option_bind fst snd].
    split; [reflexivity|]. split; [|exact Hinv']. now rewrite Hf, Hf1.
Qed.

(** X13.  A run of the loop from the initial variables, for any button
    activity, samples in the ADC range, a control register whose three
    reset bits are clear, and filtered millivolts that stay between 0
    and 5020 in every iteration: the run completes without reading
    outside the table, the filter is the one the samples alone
    determine and keeps its invariant, the selected channel is In_A or
    In_B, the remembered step is within the table, the button memories
    are ON or OFF, and the control register holds its start value, so
    no PWM is left held in reset. *)
Theorem X13_loop_invariant reg first inputs :
  0 <= reg < 256 -> Z.land reg 7 = 0 ->
  sample_range first ->
  Forall (fun input => sample_range input.2) inputs ->
  millivolts_in_table ADC_CountsTo_mVolts (filter_init first) (map snd inputs) ->
  exists ls' calls,
    main_loop ADC_CountsTo_mVolts (main_init reg first) inputs = Some (ls', calls)
    /\ filter_vars (vars ls') = filter_run first (map snd inputs)
    /\ filter_inv (filter_vars (vars ls'))
    /\ (inputChannel (vars ls') = IN_A \/ inputChannel (vars ls') = IN_B)
    /\ 0 <= previousNotePerfectValue (vars ls') <= 60
    /\ Control_Reg (vars ls') = reg
    /\ (previousButton0 ls' = OFF \/ previousButton0 ls' = ON)
    /\ (previousButton1 ls' = OFF \/ previousButton1 ls' = ON).
Proof.
  intros Hreg Hclear Hfirst Hin Hmv.
  assert (Hinit : loop_inv reg (main_init reg first)).
  { constructor; cbn; auto; [now apply filter_init_inv | lia]. }
  destruct (main_loop_in_table reg inputs (main_init reg first) Hreg Hclear Hin Hmv Hinit)
    as (ls' & calls & Hrun & Hf & [H1 H2 H3 H4 H5 H6]).
  exists ls', calls. split; [exact Hrun|]. split; [exact Hf|]. auto 7.
Qed.

(** X14.  The correction test decides the blue LED at the end of every
    iteration, also when the button 2 demo lit it at the head of the
    same iteration: the blue PWM runs exactly when the test is true,
    then with the table value at [min(step, 10)]; otherwise it is
    stopped and the indicator shows nothing. *)
Theorem X14_blue_led_decided_by_correction ls scan result ls' calls b :
  loop_iteration ADC_CountsTo_mVolts ls scan result = Some (ls', calls) ->
  exists t v,
    PWM_Lookup_at (notePerfectValue (mV (vars ls) result)) = Some t
    /\ PWM_Lookup_at (Z.min (notePerfectValue (mV (vars ls) result)) 10) = Some v
    /\ blue_running (fold_left blue_of_call calls b)
       = correction_applied (mV (vars ls) result) t
    /\ correction_magnitude (fold_left blue_of_call calls b)
       = (if correction_applied (mV (vars ls) result) t then v else 0).
Proof.
  intros Hit.
  apply loop_iteration_Some in Hit as (st' & evs & Htick & _ & ->).
  apply tick_Some_inv in Htick as (t & led & v & Ht & Hled & Hv & _ & ->).
  rewrite mV_after_CapSense_block in *.
  exists t, v. split; [exact Ht|]. split; [exact Hv|].
  rewrite fold_left_app, blue_of_signal_path, !fold_left_app.
  destruct (step_changed_in_table (inputChannel (vars (CapSense_block scan ls).1)) _ t Ht)
    as (led' & Hled' & Hchanged).
  rewrite Hled in Hled'. injection Hled' as <-.
  set (b0 := fold_left blue_of_call (CapSense_block scan ls).2 b).
  assert (Hsame : fold_left blue_call
            (if notePerfectValue (mV (vars ls) result)
                =? previousNotePerfectValue (vars (CapSense_block scan ls).1)
             then []
             else [PWM_WriteCompare t] ++ led
                  ++ [LCD_Position 1 12; LCD_PrintString (fmt_4d t);
                      LCD_Position 0 14;
                      LCD_PrintString (fmt_2ld (notePerfectValue (mV (vars ls) result)))])
            b0 = b0).
  { destruct (_ =? _); [reflexivity|]. eapply blue_call_step_changed. exact Hchanged. }
  rewrite Hsame.
  destruct (correction_applied (mV (vars ls) result) t); split; reflexivity.
Qed.

(** X15.  The compare values written to the two channel LEDs in an
    iteration whose step is unchanged: none by the signal path; the
    only ones are the two zeros of the button 2 demo, written when
    CapSense is idle and button 2 is touched.  Nothing in that
    iteration restores the LED brightness. *)
Theorem X15_led_writes_when_step_unchanged ls scan result ls' calls :
  loop_iteration ADC_CountsTo_mVolts ls scan result = Some (ls', calls) ->
  notePerfectValue (mV (vars ls) result) = previousNotePerfectValue (vars ls) ->
  omap channel_led_write calls
  = (if negb (CapSense_IsBusy scan) && BUTTON2 scan then [0; 0] else []).
Proof.
  intros Hit Hsame.
  apply loop_iteration_Some in Hit as (st' & evs & Htick & _ & ->).
  apply tick_Some_inv in Htick as (t & led & v & _ & _ & _ & _ & ->).
  rewrite mV_after_CapSense_block, (proj2 (CapSense_block_frame scan ls)), Hsame, Z.eqb_refl.
  rewrite omap_app.
  assert (Hsignal : forall x (blue_calls : list event),
            (blue_calls = [PWM_Blue_WriteCompare v; PWM_Blue_Start]
             \/ exists r1 r2, blue_calls = [Control_Reg_Write r1; PWM_Blue_Stop;
                                           Control_Reg_Write r2]) ->
            omap channel_led_write (map signal_path ([] ++ telemetry x ++ blue_calls)) = []).
  { intros x bc [->|(r1 & r2 & ->)]; reflexivity. }
  rewrite Hsignal by (destruct (correction_applied _ t); eauto).
  rewrite app_nil_r. unfold CapSense_block.
  destruct (CapSense_IsBusy scan); cbn [negb andb snd]; [reflexivity|].
  destruct (BUTTON0 scan), (BUTTON1 scan), (BUTTON2 scan);
    destruct (previousButton0 ls =? OFF), (previousButton1 ls =? OFF); reflexivity.
Qed.

End LoopRun.

(** X16.  The two firmware images agree on the CapSense block: for
    every scan they leave the same variables, and they make the same
    calls whenever button 2 is not touched; the only difference is the
    demo of button 2 (main.c) against its unused memory (Main.c 1.1). *)
Theorem X16_images_agree_but_for_button2 scan ls pb2 :
  (CapSense_block_v1_1 scan (ls, pb2)).1.1 = (CapSense_block scan ls).1
  /\ (BUTTON2 scan = false ->
        (CapSense_block_v1_1 scan (ls, pb2)).2 = (CapSense_block scan ls).2)
  /\ (CapSense_IsBusy scan = false -> BUTTON2 scan = true ->
        exists before,
          (CapSense_block scan ls).2
            = before ++ Button2_demo ++ [CapSense_ScanEnabledWidgets]
          /\ (CapSense_block_v1_1 scan (ls, pb2)).2
             = before ++ [CapSense_ScanEnabledWidgets]).
Proof.
  unfold CapSense_block_v1_1, CapSense_block. cbn [fst snd].
  destruct (CapSense_IsBusy scan); cbn [negb].
  { repeat split; try reflexivity. intros; discriminate. }
  destruct (BUTTON0 scan), (BUTTON1 scan), (BUTTON2 scan);
    destruct (previousButton0 ls =? OFF), (previousButton1 ls =? OFF);
    cbn [fst snd]; (split; [reflexivity|]);
    (split; [intros; first [reflexivity | discriminate]|]);
    intros _ Hb2; try discriminate Hb2;
    match goal with
    | |- exists before, _ /\ ?v11 = _ => exists (removelast v11)
    end; split; reflexivity.
Qed.

Lemma X13_loop_invariant_witness :
  exists ls' calls,
    main_loop (fun counts => counts / 200) (main_init 0 20000)
      [(mk_scan false false true true, 20010); (mk_scan true true true false, 60000);
       (mk_scan false true true false, 20020)]
    = Some (ls', calls)
    /\ 0 <= previousNotePerfectValue (vars ls') <= 60
    /\ Control_Reg (vars ls') = 0.
Proof.
  assert (Hreg : 0 <= 0 < 256) by lia.
  assert (Hfirst : sample_range 20000) by (unfold sample_range; lia).
  assert (Hin : Forall (fun input : CapSense_scan * Z => sample_range input.2)
                  [(mk_scan false false true true, 20010);
                   (mk_scan true true true false, 60000);
                   (mk_scan false true true false, 20020)])
    by (repeat constructor; unfold sample_range; cbn; lia).
  assert (Hmv : millivolts_in_table (fun counts => counts / 200) (filter_init 20000)
                  (map snd [(mk_scan false false true true, 20010);
                            (mk_scan true true true false, 60000);
                            (mk_scan false true true false, 20020)])).
  { cbn [map snd millivolts_in_table].
    repeat split; try exact I; vm_compute; discriminate. }
  destruct (X13_loop_invariant (fun counts => counts / 200) 0 20000 _
              Hreg eq_refl Hfirst Hin Hmv)
    as (ls' & calls & Hrun & _ & _ & _ & Hstep & Hrg & _).
  exists ls', calls. split; [exact Hrun|]. split; [exact Hstep | exact Hrg].
Defined.

Lemma X14_blue_led_decided_by_correction_witness :
  exists ls' calls,
    loop_iteration (fun counts => counts / 200) (main_init 0 200000)
      (mk_scan false false false true) 200000 = Some (ls', calls)
    /\ exists t,
         correction_magnitude
           (fold_left blue_of_call calls {| blue_compare := 0; blue_running := false |})
         = (if correction_applied
                 (milliVolts_of (fun counts => counts / 200)
                    (vars (main_init 0 200000)) 200000) t
            then 833 else 0).
Proof.
  destruct (loop_iteration (fun counts => counts / 200) (main_init 0 200000)
              (mk_scan false false false true) 200000)
    as [[ls' calls]|] eqn:Hit; [|vm_compute in Hit; discriminate Hit].
  exists ls', calls. split; [reflexivity|].
  destruct (X14_blue_led_decided_by_correction (fun counts => counts / 200) _ _ _ ls' calls
              {| blue_compare := 0; blue_running := false |} Hit)
    as (t & v & _ & Hv & _ & Hmag).
  exists t. rewrite Hmag.
  vm_compute in Hv. injection Hv as <-. reflexivity.
Defined.

Lemma X15_led_writes_when_step_unchanged_witness :
  exists ls' calls,
    loop_iteration (fun counts => counts / 200) (main_init 0 0)
      (mk_scan false false false true) 0 = Some (ls', calls)
    /\ omap channel_led_write calls = [0; 0].
Proof.
  destruct (loop_iteration (fun counts => counts / 200) (main_init 0 0)
              (mk_scan false false false true) 0)
    as [[ls' calls]|] eqn:Hit; [|vm_compute in Hit; discriminate Hit].
  exists ls', calls. split; [reflexivity|].
  exact (X15_led_writes_when_step_unchanged (fun counts => counts / 200) _ _ _ ls' calls
           Hit eq_refl).
Defined.

Lemma X16_images_agree_but_for_button2_witness :
  (CapSense_block_v1_1 (mk_scan false true false false) (main_init 0 0, OFF)).2
  = (CapSense_block (mk_scan false true false false) (main_init 0 0)).2.
Proof.
  exact (proj1 (proj2 (X16_images_agree_but_for_button2
                         (mk_scan false true false false) (main_init 0 0) OFF)) eq_refl).
Defined.

(** * The quantized output over a whole iteration *)

(** Of the calls of the CapSense block only the demo of button 2
    carries a quantized output: its two channel-LED compare values. *)
Lemma CapSense_block_primary_calls scan ls :
  existsb primary_call (CapSense_block scan ls).2
  = negb (CapSense_IsBusy scan) && BUTTON2 scan
  /\ omap channel_led_write (CapSense_block scan ls).2
     = (if negb (CapSense_IsBusy scan) && BUTTON2 scan then [0; 0] else []).
Proof.
  unfold CapSense_block.
  destruct (CapSense_IsBusy scan); cbn [negb andb snd]; [split; reflexivity|].
  destruct (BUTTON0 scan), (BUTTON1 scan), (BUTTON2 scan);
    destruct (previousButton0 ls =? OFF), (previousButton1 ls =? OFF);
    split; reflexivity.
Qed.

Lemma primary_call_signal_path evs :
  existsb primary_call (map signal_path evs) = existsb primary_output evs.
Proof.
  induction evs as [|e evs IH]; [reflexivity|]. cbn. now rewrite IH.
Qed.

(** C8 (counterexample).  An iteration that starts with the filter at
    0 counts, reads 0 counts and finds CapSense idle with button 2
    touched: the step index is 0, as it was before, and yet the trace
    of the iteration writes the compare values of the red and the green
    LED PWM. *)
Lemma C8_led_written_on_unchanged_step :
  notePerfectValue (milliVolts_of (fun counts => counts / 200) (vars (main_init 0 0)) 0)
  = previousNotePerfectValue (vars (main_init 0 0))
  /\ (snd <$> loop_iteration (fun counts => counts / 200) (main_init 0 0)
                (mk_scan false false false true) 0)
     = Some [CapSense_UpdateEnabledBaselines;
             signal_path (PWM_Blue_WriteCompare 5000); signal_path PWM_Blue_Start;
             signal_path (PWM_Red_WriteCompare 0); signal_path (PWM_Green_WriteCompare 0);
             CapSense_ScanEnabledWidgets;
             signal_path (LCD_Position 1 0); signal_path (LCD_PrintString (fmt_4ld 0));
             signal_path (PWM_Blue_WriteCompare 0); signal_path PWM_Blue_Start]
  /\ (existsb primary_call <$> (snd <$> loop_iteration (fun counts => counts / 200)
                                  (main_init 0 0) (mk_scan false false false true) 0))
     = Some true.
Proof. repeat split; vm_compute; reflexivity. Qed.

Section IterationOutputs.

Variable ADC_CountsTo_mVolts : Z -> Z.

Local Abbreviation mV st result := (milliVolts_of ADC_CountsTo_mVolts st result).

(** C8 (amended).  In every loop iteration whose filtered millivolts
    are within the table's range, with In_A or In_B selected: the
    signal path (from the ADC read on) writes the PWM compare value,
    the compare value of the selected channel's LED (the table value of
    the step, at step 0 that of step 1) and the DAC and step fields of
    the LCD exactly when the step index differs from
    [previousNotePerfectValue], and none of them when it is unchanged;
    the millivolt display and the correction test with its blue-LED
    calls happen in every iteration.  The one other writer of these
    outputs is the button 2 demo of the CapSense block at the head of
    the iteration, which writes compare 0 to the red and the green LED
    PWM whenever CapSense is idle and button 2 is touched, whatever the
    step index: a call that carries the quantized output is in the
    trace exactly when the step changed or that demo ran. *)
Theorem C8_outputs_of_one_iteration ls scan result :
  0 <= mV (vars ls) result <= 5020 ->
  inputChannel (vars ls) = IN_A \/ inputChannel (vars ls) = IN_B ->
  exists ls' t changed blue,
    loop_iteration ADC_CountsTo_mVolts ls scan result
      = Some (ls', (CapSense_block scan ls).2
                   ++ map signal_path (changed ++ telemetry (mV (vars ls) result) ++ blue))
    /\ PWM_Lookup_at (notePerfectValue (mV (vars ls) result)) = Some t
    /\ changed
       = (if notePerfectValue (mV (vars ls) result) =? previousNotePerfectValue (vars ls)
          then []
          else [PWM_WriteCompare t;
                (if IN_A =? inputChannel (vars (CapSense_block scan ls).1)
                 then PWM_Red_WriteCompare
                        (if 0 =? notePerfectValue (mV (vars ls) result) then 83 else t)
                 else PWM_Green_WriteCompare
                        (if 0 =? notePerfectValue (mV (vars ls) result) then 83 else t));
                LCD_Position 1 12; LCD_PrintString (fmt_4d t);
                LCD_Position 0 14;
                LCD_PrintString (fmt_2ld (notePerfectValue (mV (vars ls) result)))])
    /\ existsb primary_output (changed ++ telemetry (mV (vars ls) result) ++ blue)
       = negb (notePerfectValue (mV (vars ls) result) =? previousNotePerfectValue (vars ls))
    /\ existsb primary_call (CapSense_block scan ls).2
       = negb (CapSense_IsBusy scan) && BUTTON2 scan
    /\ omap channel_led_write (CapSense_block scan ls).2
       = (if negb (CapSense_IsBusy scan) && BUTTON2 scan then [0; 0] else [])
    /\ existsb primary_call
         ((CapSense_block scan ls).2
          ++ map signal_path (changed ++ telemetry (mV (vars ls) result) ++ blue))
       = negb (notePerfectValue (mV (vars ls) result) =? previousNotePerfectValue (vars ls))
         || (negb (CapSense_IsBusy scan) && BUTTON2 scan)
    /\ telemetry (mV (vars ls) result)
       = [LCD_Position 1 0; LCD_PrintString (fmt_4ld (mV (vars ls) result))]
    /\ ((exists v, blue = [PWM_Blue_WriteCompare v; PWM_Blue_Start]
                   /\ PWM_Lookup_at (Z.min (notePerfectValue (mV (vars ls) result)) 10) = Some v
                   /\ correction_applied (mV (vars ls) result) t = true)
        \/ (exists r1 r2, blue = [Control_Reg_Write r1; PWM_Blue_Stop; Control_Reg_Write r2])
           /\ correction_applied (mV (vars ls) result) t = false)
    /\ previousNotePerfectValue (vars ls') = notePerfectValue (mV (vars ls) result).
Proof.
  intros Hmv Hch.
  pose proof (mV_after_CapSense_block ADC_CountsTo_mVolts scan ls result) as HmV.
  destruct (CapSense_block_frame scan ls) as [_ Hprev].
  destruct (CapSense_block_primary_calls scan ls) as [Hui Hleds].
  pose proof (CapSense_block_channel scan ls Hch) as Hch'.
  destruct (PWM_Lookup_at_in_range (notePerfectValue (mV (vars ls) result)))
    as (t & Ht & _); [now apply notePerfectValue_in_table|].
  assert (Ht' : PWM_Lookup_at
                  (notePerfectValue (mV (vars (CapSense_block scan ls).1) result)) = Some t)
    by (rewrite HmV; exact Ht).
  destruct (tick_in_table ADC_CountsTo_mVolts _ result t Ht') as (led & v & Hled & Hv & Htick).
  rewrite HmV, Hprev in *.
  assert (Hled' : led = [if IN_A =? inputChannel (vars (CapSense_block scan ls).1)
                         then PWM_Red_WriteCompare
                                (if 0 =? notePerfectValue (mV (vars ls) result) then 83 else t)
                         else PWM_Green_WriteCompare
                                (if 0 =? notePerfectValue (mV (vars ls) result)
                                 then 83 else t)]).
  { rewrite (led_housekeeping_in_table _ _ t Ht) in Hled.
    destruct Hch' as [Hc | Hc]; rewrite Hc in Hled |- *;
      change (IN_A =? IN_A) with true in *; change (IN_A =? IN_B) with false in *;
      change (IN_B =? IN_B) with true in *; cbv iota in Hled |- *; congruence. }
  subst led.
  unfold loop_iteration. cbv zeta. rewrite Htick. cbn [mbind option_bind fst snd].
  assert (Hsignal :
    existsb primary_output
      ((if notePerfectValue (mV (vars ls) result) =? previousNotePerfectValue (vars ls)
        then []
        else [PWM_WriteCompare t] ++
             [if IN_A =? inputChannel (vars (CapSense_block scan ls).1)
              then PWM_Red_WriteCompare
                     (if 0 =? notePerfectValue (mV (vars ls) result) then 83 else t)
              else PWM_Green_WriteCompare
                     (if 0 =? notePerfectValue (mV (vars ls) result) then 83 else t)] ++
             [LCD_Position 1 12; LCD_PrintString (fmt_4d t); LCD_Position 0 14;
              LCD_PrintString (fmt_2ld (notePerfectValue (mV (vars ls) result)))])
       ++ telemetry (mV (vars ls) result)
       ++ (if correction_applied (mV (vars ls) result) t
           then [PWM_Blue_WriteCompare v; PWM_Blue_Start]
           else [Control_Reg_Write
                   (to_uint8 (Z.lor (Control_Reg (vars (CapSense_block scan ls).1)) BLUE_CTRL));
                 PWM_Blue_Stop;
                 Control_Reg_Write
                   (to_uint8
                      (Z.land
                         (to_uint8
                            (Z.lor (Control_Reg (vars (CapSense_block scan ls).1)) BLUE_CTRL))
                         (Z.lnot BLUE_CTRL)))]))
    = negb (notePerfectValue (mV (vars ls) result) =? previousNotePerfectValue (vars ls))).
  { destruct (_ =? previousNotePerfectValue (vars ls));
      destruct (correction_applied (mV (vars ls) result) t); reflexivity. }
  do 4 eexists.
  split; [reflexivity|]. split; [exact Ht|]. split; [reflexivity|].
  split; [exact Hsignal|]. split; [exact Hui|]. split; [exact Hleds|].
  split; [rewrite existsb_app, primary_call_signal_path, Hsignal, Hui; apply orb_comm|].
  split; [reflexivity|]. split; [|reflexivity].
  destruct (correction_applied (mV (vars ls) result) t).
  - left. exists v. repeat split; [exact Hv].
  - right. split; [do 2 eexists|]; reflexivity.
Qed.

End IterationOutputs.

Lemma C8_outputs_of_one_iteration_witness :
  0 <= milliVolts_of (fun counts => counts / 200) (vars (main_init 0 20000)) 20010 <= 5020
  /\ exists ls' calls,
       loop_iteration (fun counts => counts / 200) (main_init 0 20000)
         (mk_scan false false true true) 20010 = Some (ls', calls)
       /\ existsb primary_call calls = true.
Proof.
  assert (H : 0 <= milliVolts_of (fun counts => counts / 200)
                     (vars (main_init 0 20000)) 20010 <= 5020)
    by (vm_compute; split; discriminate).
  split; [exact H|].
  destruct (C8_outputs_of_one_iteration (fun counts => counts / 200) (main_init 0 20000)
              (mk_scan false false true true) 20010 H (or_introl eq_refl))
    as (ls' & t & changed & blue & Hit & _ & _ & _ & _ & _ & Hall & _).
  eexists ls', _. split; [exact Hit|].
  rewrite Hall. reflexivity.
Defined.
